(** * crud-mixin: Mixin, MixinPlugin and MixinCompositor

    A shallow embedding of [src/dist/index.js] (compiled from the TypeScript
    source of the same classes).  Objects are mutable and shared by
    reference between the caller and the compositor, so the embedding keeps
    an explicit store of [Mixin] objects indexed by reference; the methods
    are store transformers.

    Modelling conventions:
    - a function value is known only by its identity ([===] on functions
      is reference identity);
    - an own property is an [option]: [None] when the object has no such
      own property, [Some v] when it has one holding [v]; a CRUD slot value
      is [null] ([None]) or a function ([Some f]);
    - [MixinCompositor.mixins] is used as a dictionary keyed by the string
      conversion of the mixin type: its own properties are a [gmap], and
      the names it inherits from [Object.prototype] are listed, since
      [type in this.mixins] finds them too;
    - [MixinCompositor.plugins] is an object whose own properties keep
      their order and whose prototype is replaced by an assignment to
      [__proto__];
    - calling a user-supplied function ([loadCondition], [initPlugin]) is
      answered by an oracle and recorded in a call log; such functions are
      assumed not to re-enter the compositor. *)

From Stdlib Require Import Ascii String NArith.
From stdpp Require Import base option strings gmap list.

#[local] Set Warnings "-register-all".

(** ** JavaScript values that the classes handle *)

(** Identity of a function object. *)
Definition Fn := nat.

(** [type CRUDFunction = null | (() => any)]. *)
Definition CRUDFunction := option Fn.

(** The value found in [mixin.type]: a string, or [undefined] when the
    constructor was called without its first argument. *)
Inductive TypeDefinition :=
| TUndefined
| TString (s : string).

(** Property-key conversion, as done by [type in this.mixins] and
    [this.mixins[type]]. *)
Definition toPropertyKey (ty : TypeDefinition) : string :=
  match ty with
  | TUndefined => "undefined"
  | TString s => s
  end.

(** References to [Mixin] objects. *)
Definition loc := nat.

(** Errors that can be thrown. *)
Inductive Error :=
| TypeError (message : string)
| UserError (code : nat).

(** ** class Mixin *)

Module WriteProtectionIndex.
Record t := mk { make : bool; get : bool; set : bool; del : bool }.
End WriteProtectionIndex.

Module CRUDInitializer.
(** The second constructor argument; a field is [None] when the property
    is missing (or [undefined]), which selects the default [null]. *)
Record t := mk {
  make : option CRUDFunction;
  get : option CRUDFunction;
  set : option CRUDFunction;
  del : option CRUDFunction }.
Definition empty : t := mk None None None None.
End CRUDInitializer.

Module Overrides.
(** The argument of [allowOverride]; a missing key defaults to [true]. *)
Record t := mk {
  allowMake : option bool;
  allowGet : option bool;
  allowSet : option bool;
  allowDel : option bool }.
Definition empty : t := mk None None None None.
End Overrides.

Module Mixin.

(** [keyof CRUDMethods]: "make" | "get" | "set" | "del". *)
Inductive Accessor := a_make | a_get | a_set | a_del.

Record t := mk {
  type : option TypeDefinition;
  writeProtectedMethods : WriteProtectionIndex.t;
  make : option CRUDFunction;
  get : option CRUDFunction;
  set : option CRUDFunction;
  del : option CRUDFunction }.

(** [this[accessor]] as an own property. *)
Definition ownProperty (this : t) (accessor : Accessor) : option CRUDFunction :=
  match accessor with
  | a_make => make this
  | a_get => get this
  | a_set => set this
  | a_del => del this
  end.

(** [this[accessor] = v]. *)
Definition assign (accessor : Accessor) (v : CRUDFunction) (this : t) : t :=
  match accessor with
  | a_make => mk (type this) (writeProtectedMethods this) (Some v) (get this) (set this) (del this)
  | a_get => mk (type this) (writeProtectedMethods this) (make this) (Some v) (set this) (del this)
  | a_set => mk (type this) (writeProtectedMethods this) (make this) (get this) (Some v) (del this)
  | a_del => mk (type this) (writeProtectedMethods this) (make this) (get this) (set this) (Some v)
  end.

(** [this.writeProtectedMethods[accessor]]. *)
Definition writeProtected (this : t) (accessor : Accessor) : bool :=
  let w := writeProtectedMethods this in
  match accessor with
  | a_make => WriteProtectionIndex.make w
  | a_get => WriteProtectionIndex.get w
  | a_set => WriteProtectionIndex.set w
  | a_del => WriteProtectionIndex.del w
  end.

(** [this.writeProtectedMethods[accessor] = b]. *)
Definition protect (accessor : Accessor) (b : bool) (this : t) : t :=
  let w := writeProtectedMethods this in
  let w' :=
    match accessor with
    | a_make => WriteProtectionIndex.mk b (WriteProtectionIndex.get w) (WriteProtectionIndex.set w) (WriteProtectionIndex.del w)
    | a_get => WriteProtectionIndex.mk (WriteProtectionIndex.make w) b (WriteProtectionIndex.set w) (WriteProtectionIndex.del w)
    | a_set => WriteProtectionIndex.mk (WriteProtectionIndex.make w) (WriteProtectionIndex.get w) b (WriteProtectionIndex.del w)
    | a_del => WriteProtectionIndex.mk (WriteProtectionIndex.make w) (WriteProtectionIndex.get w) (WriteProtectionIndex.set w) b
    end in
  mk (type this) w' (make this) (get this) (set this) (del this).

(** [this.hasOwnProperty(accessor) && this[accessor] !== null]. *)
Definition hasMethod (this : t) (accessor : Accessor) : bool :=
  match ownProperty this accessor with
  | Some (Some _) => true
  | _ => false
  end.

(** The operation a slot offers: the function it holds, if any. *)
Definition operation (this : t) (accessor : Accessor) : CRUDFunction :=
  match ownProperty this accessor with
  | Some v => v
  | None => None
  end.

(** [new Mixin(type, init)]; [init = None] is a call without the second
    argument. *)
Definition new (ty : TypeDefinition) (init : option CRUDInitializer.t) : t :=
  let i := default CRUDInitializer.empty init in
  mk (Some ty)
     (WriteProtectionIndex.mk true true true true)
     (Some (default None (CRUDInitializer.make i)))
     (Some (default None (CRUDInitializer.get i)))
     (Some (default None (CRUDInitializer.set i)))
     (Some (default None (CRUDInitializer.del i))).

(** The store of Mixin objects. *)
Definition Heap := loc -> t.

(** Writing object [m] back at reference [this]. *)
Definition store (this : loc) (m : t) (h : Heap) : Heap :=
  fun l => if Nat.eqb l this then m else h l.

(** [this.allowOverride(overrides)]; [overrides = None] is a call without
    argument. *)
Definition allowOverride (this : loc) (overrides : option Overrides.t) (h : Heap) : Heap :=
  let o := default Overrides.empty overrides in
  let m := h this in
  store this
    (mk (type m)
        (WriteProtectionIndex.mk
           (negb (default true (Overrides.allowMake o)))
           (negb (default true (Overrides.allowGet o)))
           (negb (default true (Overrides.allowSet o)))
           (negb (default true (Overrides.allowDel o))))
        (make m) (get m) (set m) (del m))
    h.

(** [this.patchProperty(mixin, accessor)]. *)
Definition patchProperty (this mixin : loc) (accessor : Accessor) (h : Heap) : Heap :=
  match ownProperty (h mixin) accessor with
  | None => h
  | Some _ =>
    if hasMethod (h this) accessor && writeProtected (h this) accessor then h
    else
      let h1 := store this (protect accessor true (h this)) h in
      store this (assign accessor (operation (h1 mixin) accessor) (h1 this)) h1
  end.

(** [this.patchMixin(mixin)]. *)
Definition patchMixin (this mixin : loc) (h : Heap) : Heap :=
  let h := patchProperty this mixin a_make h in
  let h := patchProperty this mixin a_get h in
  let h := patchProperty this mixin a_set h in
  patchProperty this mixin a_del h.

End Mixin.

(** ** class MixinPlugin *)

(** The five property names that are never taken for a Mixin. *)
Definition reserved (prop : string) : bool :=
  bool_decide (prop = "name")
  || bool_decide (prop = "version")
  || bool_decide (prop = "allowOverride")
  || bool_decide (prop = "initPlugin")
  || bool_decide (prop = "loadCondition").

Module MixinPlugin.

(** A plugin object, or the initializer object given to the constructor.
    A metadata field is [None] when the object has no such property.
    [members] lists the remaining enumerable properties, each holding a
    reference to a Mixin, in [for ... in] order. *)
Record t := mk {
  name : option string;
  version : option string;
  allowOverride : option bool;
  initPlugin : option CRUDFunction;
  loadCondition : option CRUDFunction;
  members : list (string * loc) }.

(** The Mixins visited by [for (const prop in obj)] once the reserved
    names are skipped. *)
Definition mixinsOf (obj : t) : list loc :=
  (filter (fun p => reserved p.1 = false) (members obj)).*2.

(** [Object.assign(this, initializerObj)] over the class field defaults. *)
Definition assignFields (initializerObj : t) : t :=
  mk (Some (default "Untitled Plugin" (name initializerObj)))
     (Some (default "0.0.0" (version initializerObj)))
     (Some (default false (allowOverride initializerObj)))
     (Some (default None (initPlugin initializerObj)))
     (Some (default None (loadCondition initializerObj)))
     (members initializerObj).

(** [new MixinPlugin(initializerObj)]: the new plugin and the store after
    the constructor has run. *)
Definition new (initializerObj : t) (h : Mixin.Heap) : t * Mixin.Heap :=
  let this := assignFields initializerObj in
  if negb (default false (allowOverride this)) then (this, h)
  else
    (this,
     fold_left (fun h mixin => Mixin.allowOverride mixin None h) (mixinsOf this) h).

End MixinPlugin.

(** ** Calls into user-supplied functions *)

Inductive JSValue :=
| JSNumber (n : nat)
| JSArray (elements : list JSValue).

(** [callee.call(receiver, ...arguments)]. *)
Record Call := mkCall {
  callee : Fn;
  receiver : MixinPlugin.t;
  arguments : list JSValue }.

(** How a call ends: it returns (or its promise fulfils) with a value of
    the given truthiness, or it throws (or its promise rejects). *)
Inductive Completion :=
| Fulfils (truthy : bool)
| Fails (e : Error).

(** ** Plain objects used as ordered dictionaries *)

Module PropertyMap.

Definition digit (c : ascii) : option N :=
  let n := N_of_ascii c in
  if ((48 <=? n) && (n <=? 57))%N then Some (n - 48)%N else None.

Fixpoint digits (s : string) (acc : N) : option N :=
  match s with
  | EmptyString => Some acc
  | String c s' =>
    match digit c with
    | Some d => digits s' (10 * acc + d)%N
    | None => None
    end
  end.

(** The array index a property key denotes, if any: a canonical decimal
    numeral below 2^32 - 1. *)
Definition arrayIndex (key : string) : option N :=
  match key with
  | EmptyString => None
  | String c rest =>
    if bool_decide (c = "0"%char) then
      match rest with EmptyString => Some 0%N | _ => None end
    else
      match digits key 0 with
      | Some n => if (n <? 4294967295)%N then Some n else None
      | None => None
      end
  end.

Section Entries.
Context {V : Type}.

(** Own properties in creation order. *)
Definition t := list (string * V).

(** [obj[key] = v]: an existing property keeps its place. *)
Fixpoint put (key : string) (v : V) (obj : t) : t :=
  match obj with
  | [] => [(key, v)]
  | (k, x) :: rest =>
    if bool_decide (k = key) then (k, v) :: rest
    else (k, x) :: put key v rest
  end.

Fixpoint insertByIndex (i : N) (e : string * V) (l : list (N * (string * V))) :=
  match l with
  | [] => [(i, e)]
  | (j, e') :: rest =>
    if (i <? j)%N then (i, e) :: l else (j, e') :: insertByIndex i e rest
  end.

(** The array-index properties, in ascending index order. *)
Fixpoint indexed (obj : t) : list (N * (string * V)) :=
  match obj with
  | [] => []
  | e :: rest =>
    match arrayIndex e.1 with
    | Some i => insertByIndex i e (indexed rest)
    | None => indexed rest
    end
  end.

(** The other properties, in creation order. *)
Definition named (obj : t) : t :=
  filter (fun e => arrayIndex e.1 = None) obj.

(** Enumeration order of [for (const key in obj)]. *)
Definition forIn (obj : t) : t := (indexed obj).*2 ++ named obj.
End Entries.
Arguments t : clear implicits.

End PropertyMap.

(** The property names that a plain object inherits from
    [Object.prototype]. *)
Definition inheritedKeys : list string :=
  ["constructor"; "__defineGetter__"; "__defineSetter__"; "hasOwnProperty";
   "__lookupGetter__"; "__lookupSetter__"; "isPrototypeOf";
   "propertyIsEnumerable"; "toString"; "valueOf"; "__proto__";
   "toLocaleString"].

(** [key in {}]. *)
Definition inherited (key : string) : bool :=
  bool_decide (key ∈ inheritedKeys).

(** ** The object [plugins] *)

Module PluginList.

(** What [this.plugins[name]] can hold: a recorded plugin or, once the
    prototype has been replaced by a plugin, a property of that plugin. *)
Inductive Value :=
| Plugin (plugin : MixinPlugin.t)
| Text (s : string)
| Boolean (b : bool)
| Null
| Function (f : Fn)
| Object (mixin : loc).

(** The own properties in creation order, and the plugin that an
    assignment to [__proto__] has made the prototype ([None] while the
    prototype is [Object.prototype]). *)
Record t := mk {
  own : PropertyMap.t MixinPlugin.t;
  prototype : option MixinPlugin.t }.

(** [{}]. *)
Definition empty : t := mk [] None.

(** [obj[key] = plugin]: the key [__proto__] reaches the setter of
    [Object.prototype], which replaces the prototype and creates no own
    property; any other key creates or updates an own property. *)
Definition set (key : string) (plugin : MixinPlugin.t) (obj : t) : t :=
  if bool_decide (key = "__proto__") then mk (own obj) (Some plugin)
  else mk (PropertyMap.put key plugin (own obj)) (prototype obj).

(** The enumerable properties of a plugin with their values, the
    metadata in the order of the class fields.  The members come last:
    visiting one has no effect, so their place does not matter. *)
Definition properties (p : MixinPlugin.t) : list (string * Value) :=
  match MixinPlugin.name p with Some s => [("name", Text s)] | None => [] end
  ++ match MixinPlugin.version p with Some s => [("version", Text s)] | None => [] end
  ++ match MixinPlugin.allowOverride p with
     | Some b => [("allowOverride", Boolean b)]
     | None => []
     end
  ++ match MixinPlugin.initPlugin p with
     | Some (Some f) => [("initPlugin", Function f)]
     | Some None => [("initPlugin", Null)]
     | None => []
     end
  ++ match MixinPlugin.loadCondition p with
     | Some (Some f) => [("loadCondition", Function f)]
     | Some None => [("loadCondition", Null)]
     | None => []
     end
  ++ ((fun m => (m.1, Object m.2)) <$> MixinPlugin.members p).

(** [for (const name in obj)] with [obj[name]]: the own properties, then
    the properties of the prototype that no own property hides. *)
Definition forIn (obj : t) : list (string * Value) :=
  ((fun e : string * MixinPlugin.t => (e.1, Plugin e.2)) <$> PropertyMap.forIn (own obj))
  ++ match prototype obj with
     | None => []
     | Some p => filter (fun e => e.1 ∉ (own obj).*1) (properties p)
     end.

End PluginList.

(** ** class MixinCompositor *)

Module MixinCompositor.

(** The fields of a compositor: [plugins] is enumerated, [mixins] holds
    the own properties of an object that is only ever looked up by key. *)
Record t := mk {
  plugins : PluginList.t;
  mixins : gmap string (list loc) }.

(** [plugins = {}; mixins = {}]. *)
Definition empty : t := mk PluginList.empty ∅.

(** Everything a method can read or change: the Mixin objects, the
    compositor itself ([this]) and the log of calls made so far. *)
Record World := mkWorld {
  objects : Mixin.Heap;
  self : t;
  calls : list Call }.

(** A method either returns or throws; the store survives both. *)
Inductive Outcome (A : Type) :=
| Returned (a : A) (w : World)
| Thrown (e : Error) (w : World).
Arguments Returned {A} a w.
Arguments Thrown {A} e w.

Definition world {A} (o : Outcome A) : World :=
  match o with
  | Returned _ w => w
  | Thrown _ w => w
  end.

Definition M (A : Type) : Type := World -> Outcome A.

#[export] Instance M_ret : MRet M := fun A a w => Returned a w.

#[export] Instance M_bind : MBind M := fun A B f m w =>
  match m w with
  | Returned a w' => f a w'
  | Thrown e w' => Thrown e w'
  end.

Definition throw {A} (e : Error) : M A := fun w => Thrown e w.

Definition getObjects : M Mixin.Heap := fun w => Returned (objects w) w.

Definition getThis : M t := fun w => Returned (self w) w.

Definition modifyObjects (f : Mixin.Heap -> Mixin.Heap) : M unit :=
  fun w => Returned tt (mkWorld (f (objects w)) (self w) (calls w)).

Definition setMixins (key : string) (l : list loc) : M unit :=
  fun w => Returned tt
    (mkWorld (objects w)
             (mk (plugins (self w)) (<[key := l]> (mixins (self w))))
             (calls w)).

Definition setPlugin (key : string) (plugin : MixinPlugin.t) : M unit :=
  fun w => Returned tt
    (mkWorld (objects w)
             (mk (PluginList.set key plugin (plugins (self w))) (mixins (self w)))
             (calls w)).

(** [for (const x of xs) body(x)]. *)
Fixpoint forEach {A} (body : A -> M unit) (xs : list A) : M unit :=
  match xs with
  | [] => mret tt
  | x :: rest => body x ;; forEach body rest
  end.

(** The message of the error thrown by [addMixin]; an object without
    [toString] of its own converts to "[object Object]". *)
Definition missingType : Error :=
  TypeError "Mixin plugin missing type definition: [object Object]".

(** The error of [for (const mixin2 of this.mixins[type])] when the value
    is not iterable (the wording is that of V8). *)
Definition notIterable : Error :=
  TypeError "this.mixins[type] is not iterable".

(** The error of ["initPlugin" in value] when the value is not an
    object (the wording is that of V8, which shows the value). *)
Definition notAnObject (shown : string) : Error :=
  TypeError ("Cannot use 'in' operator to search for 'initPlugin' in " ++ shown).

(** [this.addMixin(mixin)].  When [mixins] has no own property for the
    key, [type in this.mixins] still holds for an inherited name; the
    value found there is a function or [Object.prototype], which the loop
    cannot iterate. *)
Definition addMixin (mixin : loc) : M unit :=
  h ← getObjects;
  match Mixin.type (h mixin) with
  | None => throw missingType
  | Some type =>
    this ← getThis;
    let key := toPropertyKey type in
    match mixins this !! key with
    | None =>
      if inherited key then throw notIterable
      else setMixins key [mixin]
    | Some registered =>
      forEach (fun mixin2 =>
                 modifyObjects (Mixin.patchMixin mixin mixin2) ;;
                 modifyObjects (Mixin.patchMixin mixin2 mixin))
              registered ;;
      setMixins key (registered ++ [mixin])
    end
  end.

Section Oracle.

(** What a call does, given the calls made before it. *)
Variable behaviour : list Call -> Call -> Completion.

(** Calling (and, in an async method, awaiting) a user function. *)
Definition invoke (c : Call) : M bool := fun w =>
  let w' := mkWorld (objects w) (self w) (calls w ++ [c]) in
  match behaviour (calls w) c with
  | Fulfils truthy => Returned truthy w'
  | Fails e => Thrown e w'
  end.

(** [this.addPlugin(plugin)]. *)
Definition addPlugin (plugin : MixinPlugin.t) : M unit :=
  let pluginName := default "Untitled Plugin" (MixinPlugin.name plugin) in
  load ← match MixinPlugin.loadCondition plugin with
         | Some (Some f) => invoke (mkCall f plugin [])
         | _ => mret true
         end;
  if negb load then mret tt
  else
    setPlugin pluginName plugin ;;
    forEach addMixin (MixinPlugin.mixinsOf plugin).

(** [new MixinCompositor(plugins)]. *)
Definition new (plugins : list MixinPlugin.t) : M unit :=
  (fun w => Returned tt (mkWorld (objects w) empty (calls w))) ;;
  forEach addPlugin plugins.

(** One turn of the loop of [initMixinPlugins]: ["initPlugin" in plugin]
    throws on a value that is not an object, and is false of a function
    and of a Mixin. *)
Definition initOne (initParameters : list JSValue) (entry : string * PluginList.Value) : M unit :=
  match entry.2 with
  | PluginList.Plugin plugin =>
    match MixinPlugin.initPlugin plugin with
    | Some (Some f) => invoke (mkCall f plugin [JSArray initParameters]) ;; mret tt
    | _ => mret tt
    end
  | PluginList.Text s => throw (notAnObject s)
  | PluginList.Boolean b => throw (notAnObject (if b then "true" else "false"))
  | PluginList.Null => throw (notAnObject "null")
  | PluginList.Function _ => mret tt
  | PluginList.Object _ => mret tt
  end.

(** [this.initMixinPlugins(...initParameters)]: [Returned c] is a
    promise resolved with the compositor, [Thrown e] one rejected with
    [e]. *)
Definition initMixinPlugins (initParameters : list JSValue) : M t :=
  this ← getThis;
  forEach (initOne initParameters) (PluginList.forIn (plugins this)) ;;
  getThis.

End Oracle.

End MixinCompositor.


(** * Notions used in the statements *)

(** ** One slot at a time

    [patchProperty] reads and writes a single slot of [this]: the own
    property and its protection flag.  Every merge is reduced below to a
    function on that pair. *)

#[global] Instance Accessor_eq_dec : EqDecision Mixin.Accessor.
Proof. solve_decision. Defined.

(** The part of an object that a merge on [accessor] depends on. *)
Definition slot (m : Mixin.t) (accessor : Mixin.Accessor) : option CRUDFunction * bool :=
  (Mixin.ownProperty m accessor, Mixin.writeProtected m accessor).

(** The effect of [patchProperty] on the slot of [this], given the own
    property of the source. *)
Definition patchSlot (target : option CRUDFunction * bool)
           (source : option CRUDFunction) : option CRUDFunction * bool :=
  match source with
  | None => target
  | Some v =>
    match target with
    | (Some (Some _), true) => target
    | _ => (Some v, true)
    end
  end.

(** ** Registration *)

(** What the loop of [addMixin] does to the store: the incoming mixin and
    each registered one patch each other, one registered mixin after the
    other. *)
Definition crossPatch (mixin : loc) (registered : list loc) (h : Mixin.Heap) : Mixin.Heap :=
  fold_left
    (fun h mixin2 => Mixin.patchMixin mixin2 mixin (Mixin.patchMixin mixin mixin2 h))
    registered h.

(** [this.mixins[key]], empty when the key is missing. *)
Definition registeredUnder (c : MixinCompositor.t) (key : string) : list loc :=
  default [] (MixinCompositor.mixins c !! key).

(** Whether the loop of [addMixin] can run for a type that converts to
    [key]: the key is an own property of [mixins], or no inherited
    property bears that name. *)
Definition usableKey (c : MixinCompositor.t) (key : string) : bool :=
  match MixinCompositor.mixins c !! key with
  | Some _ => true
  | None => negb (inherited key)
  end.

(** Whether [addMixin] takes the object at [x]: it has a type, and the
    key of that type is usable. *)
Definition takes (w : MixinCompositor.World) (x : loc) : bool :=
  match Mixin.type (MixinCompositor.objects w x) with
  | Some ty => usableKey (MixinCompositor.self w) (toPropertyKey ty)
  | None => false
  end.

(** A caller that makes the calls [addMixin l] for each [l] in turn and
    carries on after a throw. *)
Definition addMixins (ls : list loc) (w : MixinCompositor.World) : MixinCompositor.World :=
  fold_left (fun w l => MixinCompositor.world (MixinCompositor.addMixin l w)) ls w.

(** ** Sample objects *)

Definition blank : Mixin.t := Mixin.new TUndefined None.

(** A store holding the listed objects, and [blank] elsewhere. *)
Definition heapOf (l : list (loc * Mixin.t)) : Mixin.Heap :=
  fold_right (fun p h => Mixin.store p.1 p.2 h) (fun _ => blank) l.

(** The initializer [{ accessor: f }]. *)
Definition only (accessor : Mixin.Accessor) (f : Fn) : option CRUDInitializer.t :=
  Some match accessor with
       | Mixin.a_make => CRUDInitializer.mk (Some (Some f)) None None None
       | Mixin.a_get => CRUDInitializer.mk None (Some (Some f)) None None
       | Mixin.a_set => CRUDInitializer.mk None None (Some (Some f)) None
       | Mixin.a_del => CRUDInitializer.mk None None None (Some (Some f))
       end.

(** [allowOverride({ allowGet: true })]. *)
Definition allowGetOnly : option Overrides.t :=
  Some (Overrides.mk None (Some true) None None).

(** Two bundles of type "T", each with its own [make]. *)
Definition twoMakers : Mixin.Heap :=
  heapOf [(1, Mixin.new (TString "T") (only Mixin.a_make 7));
          (2, Mixin.new (TString "T") (only Mixin.a_make 8))].

(** Three bundles of type "T", each with its own [get]. *)
Definition getters : Mixin.Heap :=
  heapOf [(1, Mixin.new (TString "T") (only Mixin.a_get 7));
          (2, Mixin.new (TString "T") (only Mixin.a_get 8));
          (3, Mixin.new (TString "T") (only Mixin.a_get 9))].

(** An unprotected bundle with a [get], and a bundle built without
    operations. *)
Definition emptySource : Mixin.Heap :=
  Mixin.allowOverride 1 None
    (heapOf [(1, Mixin.new (TString "T") (only Mixin.a_get 7));
             (2, Mixin.new (TString "T") None)]).

(** ** Bundles that complete each other *)

Definition accessors : list Mixin.Accessor :=
  [Mixin.a_make; Mixin.a_get; Mixin.a_set; Mixin.a_del].

(** No slot holds a function in both objects. *)
Definition disjointOperations (a b : Mixin.t) : bool :=
  forallb (fun s => negb (Mixin.hasMethod a s && Mixin.hasMethod b s)) accessors.

(** Every slot that holds a function is write-protected. *)
Definition methodsProtected (m : Mixin.t) : bool :=
  forallb (fun s => implb (Mixin.hasMethod m s) (Mixin.writeProtected m s)) accessors.

(** In every slot, [m] offers the operation that [a] or [b] offers. *)
Definition holdsUnion (m a b : Mixin.t) : bool :=
  forallb (fun s => bool_decide
                      (Mixin.operation m s = Mixin.operation a s ∪ Mixin.operation b s))
          accessors.

(** Both [A] and [B] of world [w'] hold the union of what they held in [w]. *)
Definition bothHoldUnion (w w' : MixinCompositor.World) (A B : loc) : bool :=
  let h := MixinCompositor.objects w in
  let h' := MixinCompositor.objects w' in
  holdsUnion (h' A) (h A) (h B) && holdsUnion (h' B) (h A) (h B).

(** A world with the given objects, a new compositor and no call made. *)
Definition worldOf (h : Mixin.Heap) : MixinCompositor.World :=
  MixinCompositor.mkWorld h MixinCompositor.empty [].

(** Bundle 1 is [new Mixin("T", {make: fnA})] and bundle 2 is
    [new Mixin("T", {get: fnB})], with [fnA = 7] and [fnB = 8]. *)
Definition scenarioAB : Mixin.Heap :=
  heapOf [(1, Mixin.new (TString "T") (only Mixin.a_make 7));
          (2, Mixin.new (TString "T") (only Mixin.a_get 8))].

(** The same two bundles after [allowOverride()] on bundle 2. *)
Definition laterUnprotected : MixinCompositor.World :=
  worldOf (Mixin.allowOverride 2 None scenarioAB).

(** The same two bundles, and a compositor that already holds bundle 3,
    [new Mixin("T", {make: fnC})] with [fnC = 9]. *)
Definition alreadyPopulated : MixinCompositor.World :=
  MixinCompositor.world
    (MixinCompositor.addMixin 3
       (worldOf (Mixin.store 3 (Mixin.new (TString "T") (only Mixin.a_make 9)) scenarioAB))).

(** The two bundles of [scenarioAB] with the type "toString". *)
Definition inheritedName : MixinCompositor.World :=
  worldOf (heapOf [(1, Mixin.new (TString "toString") (only Mixin.a_make 7));
                   (2, Mixin.new (TString "toString") (only Mixin.a_get 8))]).

(** ** Plugins entering a compositor *)

(** The call [plugin.loadCondition()], when [addPlugin] makes it. *)
Definition loadCall (plugin : MixinPlugin.t) : option Call :=
  match MixinPlugin.loadCondition plugin with
  | Some (Some f) => Some (mkCall f plugin [])
  | _ => None
  end.

(** How the load condition of [plugin] ends in world [w]; a plugin
    without one loads. *)
Definition loadResult (behaviour : list Call -> Call -> Completion)
           (w : MixinCompositor.World) (plugin : MixinPlugin.t) : Completion :=
  match loadCall plugin with
  | Some c => behaviour (MixinCompositor.calls w) c
  | None => Fulfils true
  end.

(** The world once [plugin] has passed its load condition and has been
    recorded under its name, before any of its mixins is added. *)
Definition entered (plugin : MixinPlugin.t) (w : MixinCompositor.World) : MixinCompositor.World :=
  MixinCompositor.mkWorld
    (MixinCompositor.objects w)
    (MixinCompositor.mk
       (PluginList.set (default "Untitled Plugin" (MixinPlugin.name plugin)) plugin
                       (MixinCompositor.plugins (MixinCompositor.self w)))
       (MixinCompositor.mixins (MixinCompositor.self w)))
    (MixinCompositor.calls w ++ option_list (loadCall plugin)).

(** An oracle under which every call returns a truthy value. *)
Definition alwaysTruthy : list Call -> Call -> Completion :=
  fun _ _ => Fulfils true.

(** A plain object used as a plugin: bundle 1 of [scenarioAB], then an
    object without [type] (reference 5), then bundle 2. *)
Definition brokenPlugin : MixinPlugin.t :=
  MixinPlugin.mk (Some "P") None None None None [("A", 1); ("Bad", 5); ("B", 2)].

Definition brokenWorld : MixinCompositor.World :=
  worldOf (Mixin.store 5
             (Mixin.mk None (WriteProtectionIndex.mk true true true true)
                       (Some None) (Some None) (Some None) (Some None))
             scenarioAB).

(** ** Initializing plugins *)

(** The call that [initMixinPlugins] makes for an entry of [plugins], if
    it makes one. *)
Definition initCall (initParameters : list JSValue) (entry : string * MixinPlugin.t) : option Call :=
  match MixinPlugin.initPlugin entry.2 with
  | Some (Some f) => Some (mkCall f entry.2 [JSArray initParameters])
  | _ => None
  end.

Definition initCalls (initParameters : list JSValue)
           (entries : list (string * MixinPlugin.t)) : list Call :=
  omap (initCall initParameters) entries.

(** Every call of [cs], made in turn after the calls of [log], returns. *)
Fixpoint allFulfil (behaviour : list Call -> Call -> Completion)
         (log cs : list Call) : bool :=
  match cs with
  | [] => true
  | c :: rest =>
    match behaviour log c with
    | Fulfils _ => allFulfil behaviour (log ++ [c]) rest
    | Fails _ => false
    end
  end.

(** Recording plugins under their names, one after the other, in a new
    [plugins] object. *)
Definition recordAll (registered : list (string * MixinPlugin.t)) : PluginList.t :=
  fold_left (fun obj e => PluginList.set e.1 e.2 obj) registered PluginList.empty.

(** The calls that the specification describes for [initGroups]: one per
    registered group that has an initializer, in registration order, with
    the group as receiver and [initArgs] as the arguments. *)
Definition describedInitCalls (groups : list MixinPlugin.t) (initArgs : list JSValue) : list Call :=
  omap (fun g => match MixinPlugin.initPlugin g with
                 | Some (Some f) => Some (mkCall f g initArgs)
                 | _ => None
                 end) groups.

(** An oracle under which the function [f] throws [e] and every other call
    returns a truthy value. *)
Definition failsOn (f : Fn) (e : Error) : list Call -> Call -> Completion :=
  fun _ c => if Nat.eqb (callee c) f then Fails e else Fulfils true.

(** A plugin without mixins, with the given name and initializer. *)
Definition hook (name : string) (f : Fn) : MixinPlugin.t :=
  MixinPlugin.mk (Some name) None None (Some (Some f)) None [].

(** A compositor built from the given plugins. *)
Definition compositorOf (groups : list MixinPlugin.t) : MixinCompositor.World :=
  MixinCompositor.world
    (MixinCompositor.new alwaysTruthy groups (worldOf (fun _ => blank))).


(** The parameters [1, 2]. *)
Definition someArgs : list JSValue := [JSNumber 1; JSNumber 2].

(** One plugin "a". *)
Definition single : MixinCompositor.World := compositorOf [hook "a" 1].

(** Plugin "2" registered before plugin "1". *)
Definition twoThenOne : MixinCompositor.World := compositorOf [hook "2" 21; hook "1" 11].

(** Plugins "a", "b" and then another plugin named "a". *)
Definition reRegistered : MixinCompositor.World :=
  compositorOf [hook "a" 1; hook "b" 2; hook "a" 3].

(** One plugin named "__proto__". *)
Definition protoNamed : MixinCompositor.World := compositorOf [hook "__proto__" 1].

(** Plugins "a", "b", "c". *)
Definition threeHooks : MixinCompositor.World :=
  compositorOf [hook "a" 1; hook "b" 2; hook "c" 3].

(** The four functions of the repository's tests, and a bundle holding
    them. *)
Definition createDummyMixin (ty : string) (base : Fn) : Mixin.t :=
  Mixin.new (TString ty)
    (Some (CRUDInitializer.mk (Some (Some base)) (Some (Some (base + 1)))
                              (Some (Some (base + 2))) (Some (Some (base + 3))))).


(** ** Notions used in the further properties *)

(** The operation for [accessor] offered by the first object of
    [registered] that offers one. *)
Fixpoint firstMethod (h : Mixin.Heap) (registered : list loc)
         (accessor : Mixin.Accessor) : CRUDFunction :=
  match registered with
  | [] => None
  | m :: rest =>
    match Mixin.operation (h m) accessor with
    | Some f => Some f
    | None => firstMethod h rest accessor
    end
  end.

(** Whether a slot, seen as own property and flag, holds a function. *)
Definition holdsFunction (s : option CRUDFunction * bool) : bool :=
  match s.1 with
  | Some (Some _) => true
  | _ => false
  end.

(** [obj[key]], read as an own property. *)
Fixpoint valueOf {V} (key : string) (obj : PropertyMap.t V) : option V :=
  match obj with
  | [] => None
  | (k, v) :: rest => if bool_decide (k = key) then Some v else valueOf key rest
  end.

(** The name under which [addPlugin] records a plugin. *)
Definition pluginName (plugin : MixinPlugin.t) : string :=
  default "Untitled Plugin" (MixinPlugin.name plugin).

(** Every mixin found under a key has a type that converts to that key. *)
Definition wellIndexed (w : MixinCompositor.World) : Prop :=
  forall k l,
    l ∈ registeredUnder (MixinCompositor.self w) k ->
    exists ty, Mixin.type (MixinCompositor.objects w l) = Some ty
               /\ toPropertyKey ty = k.

(** Bundle 1 holds [make] and is protected, bundles 2 and 3 are empty. *)
Definition oneMaker : Mixin.Heap :=
  heapOf [(1, Mixin.new (TString "T") (only Mixin.a_make 7));
          (2, Mixin.new (TString "T") None);
          (3, Mixin.new (TString "T") None)].

(** A plugin with a load condition (function 40), an initializer
    (function 41) and the two bundles of [scenarioAB]. *)
Definition guarded : MixinPlugin.t :=
  MixinPlugin.mk (Some "G") None None (Some (Some 41)) (Some (Some 40))
                 [("A", 1); ("B", 2)].

(** An oracle under which every call returns a falsy value. *)
Definition alwaysFalsy : list Call -> Call -> Completion :=
  fun _ _ => Fulfils false.

(** Bundle 1 has no type argument, bundle 2 has the type "undefined". *)
Definition lookalikes : Mixin.Heap :=
  heapOf [(1, Mixin.new TUndefined (only Mixin.a_make 7));
          (2, Mixin.new (TString "undefined") (only Mixin.a_get 8))].
(** * Properties *)

(** ** One slot at a time *)

Section SlotView.
Import Mixin.

Lemma store_same this m h : store this m h this = m.
Proof. unfold store. by rewrite Nat.eqb_refl. Qed.

Lemma store_other this m h l : l ≠ this -> store this m h l = h l.
Proof. intros Hne. unfold store. by apply Nat.eqb_neq in Hne as ->. Qed.

Lemma ownProperty_protect a b v m :
  ownProperty (protect a v m) b = ownProperty m b.
Proof. by destruct a, b. Qed.

Lemma patchProperty_other this mixin a h l :
  l ≠ this -> patchProperty this mixin a h l = h l.
Proof.
  intros Hne. unfold patchProperty.
  destruct (ownProperty (h mixin) a); [|done].
  destruct (hasMethod (h this) a && writeProtected (h this) a); [done|].
  by rewrite !store_other.
Qed.

Lemma patchProperty_this this mixin a h :
  patchProperty this mixin a h this =
  match ownProperty (h mixin) a with
  | None => h this
  | Some v =>
    if hasMethod (h this) a && writeProtected (h this) a then h this
    else assign a v (protect a true (h this))
  end.
Proof.
  unfold patchProperty.
  destruct (ownProperty (h mixin) a) as [v|] eqn:Hsrc; [|done].
  destruct (hasMethod (h this) a && writeProtected (h this) a); [done|].
  rewrite !store_same. f_equal. unfold operation.
  destruct (decide (mixin = this)) as [->|Hne].
  - by rewrite store_same, ownProperty_protect, Hsrc.
  - by rewrite store_other, Hsrc.
Qed.

Lemma patchProperty_type this mixin a h l :
  type (patchProperty this mixin a h l) = type (h l).
Proof.
  destruct (decide (l = this)) as [->|Hne]; [|by rewrite patchProperty_other].
  rewrite patchProperty_this.
  destruct (ownProperty (h mixin) a); [|done].
  destruct (hasMethod (h this) a && writeProtected (h this) a); [done|].
  by destruct a.
Qed.

Lemma patchProperty_slot this mixin a h :
  slot (patchProperty this mixin a h this) a =
  patchSlot (slot (h this) a) (ownProperty (h mixin) a).
Proof.
  rewrite patchProperty_this. unfold slot, patchSlot, hasMethod.
  destruct (ownProperty (h mixin) a) as [v|]; [|done].
  destruct (ownProperty (h this) a) as [[f|]|] eqn:Hown,
           (writeProtected (h this) a) eqn:Hwp; simpl;
    rewrite ?Hown, ?Hwp; try done.
  all: by destruct a.
Qed.

Lemma patchProperty_frame this mixin a h l b :
  l ≠ this \/ a ≠ b ->
  slot (patchProperty this mixin a h l) b = slot (h l) b.
Proof.
  intros Hframe.
  destruct (decide (l = this)) as [->|Hne]; [|by rewrite patchProperty_other].
  destruct Hframe as [|Hab]; [done|].
  rewrite patchProperty_this.
  destruct (ownProperty (h mixin) a); [|done].
  destruct (hasMethod (h this) a && writeProtected (h this) a); [done|].
  by destruct a, b.
Qed.

Lemma patchMixin_other this mixin h l :
  l ≠ this -> patchMixin this mixin h l = h l.
Proof. intros Hne. unfold patchMixin. by rewrite !patchProperty_other. Qed.

Lemma patchMixin_type this mixin h l :
  type (patchMixin this mixin h l) = type (h l).
Proof. unfold patchMixin. by rewrite !patchProperty_type. Qed.

(** A merge of all four slots acts on each slot as a merge of that slot
    alone, also when the source is [this] itself. *)
Lemma patchMixin_slot this mixin h b :
  slot (patchMixin this mixin h this) b =
  patchSlot (slot (h this) b) (ownProperty (h mixin) b).
Proof.
  assert (Hsrc : forall a h', a ≠ b ->
    ownProperty (patchProperty this mixin a h' mixin) b = ownProperty (h' mixin) b).
  { intros a h' Hab.
    change (ownProperty (patchProperty this mixin a h' mixin) b)
      with (slot (patchProperty this mixin a h' mixin) b).1.
    rewrite patchProperty_frame; [done|by right]. }
  unfold patchMixin.
  destruct b;
    repeat first
      [ rewrite patchProperty_frame by (by right)
      | rewrite patchProperty_slot
      | rewrite Hsrc by done ];
    done.
Qed.

End SlotView.

(** ** Write protection *)

Section WriteProtection.
Import Mixin.

Lemma allowOverride_other this o h l :
  l ≠ this -> allowOverride this o h l = h l.
Proof. intros Hne. unfold allowOverride. by rewrite store_other. Qed.

Lemma allowOverride_ownProperty this o h l a :
  ownProperty (allowOverride this o h l) a = ownProperty (h l) a.
Proof.
  destruct (decide (l = this)) as [->|Hne]; [|by rewrite allowOverride_other].
  unfold allowOverride. rewrite store_same. by destruct a.
Qed.

Lemma allowOverride_flags this o h :
  writeProtectedMethods (allowOverride this o h this) =
  let o' := default Overrides.empty o in
  WriteProtectionIndex.mk
    (negb (default true (Overrides.allowMake o')))
    (negb (default true (Overrides.allowGet o')))
    (negb (default true (Overrides.allowSet o')))
    (negb (default true (Overrides.allowDel o'))).
Proof. unfold allowOverride. by rewrite store_same. Qed.

(** A slot that holds a function and is protected survives any merge
    into any object of the store. *)
Lemma patchProperty_protected this mixin b h l a f :
  slot (h l) a = (Some (Some f), true) ->
  slot (patchProperty this mixin b h l) a = (Some (Some f), true).
Proof.
  intros Hslot.
  destruct (decide (l = this)) as [->|Hne], (decide (b = a)) as [->|Hba].
  - rewrite patchProperty_slot, Hslot. by destruct (ownProperty (h mixin) a).
  - rewrite patchProperty_frame; [done|by right].
  - rewrite patchProperty_frame; [done|by left].
  - rewrite patchProperty_frame; [done|by left].
Qed.

Lemma patchMixin_protected this mixin h l a f :
  slot (h l) a = (Some (Some f), true) ->
  slot (patchMixin this mixin h l) a = (Some (Some f), true).
Proof.
  intros Hslot. unfold patchMixin.
  by do 4 apply patchProperty_protected.
Qed.

(** A source without the own property leaves the whole store alone. *)
Lemma patchProperty_absent_source this mixin a h :
  ownProperty (h mixin) a = None -> patchProperty this mixin a h = h.
Proof. intros Hsrc. unfold patchProperty. by rewrite Hsrc. Qed.

(** A source whose own property holds [null] is copied like any other
    value: unless the target slot holds a protected function, the target
    slot becomes [null] and protected. *)
Lemma patchProperty_null_source this mixin a h :
  ownProperty (h mixin) a = Some None ->
  slot (patchProperty this mixin a h this) a =
  match slot (h this) a with
  | (Some (Some f), true) => (Some (Some f), true)
  | _ => (Some None, true)
  end.
Proof.
  intros Hsrc. rewrite patchProperty_slot, Hsrc.
  by destruct (slot (h this) a) as [[[f|]|] []].
Qed.

(** C1: a bundle built by the constructor, whatever its initial
    operations, has its four write-protection flags set; and a slot that
    holds a function while its flag is set keeps that function through a
    later [patchProperty] on any accessor, or [patchMixin], from any
    source. *)
Theorem C1_no_override :
  (forall ty init,
      writeProtectedMethods (new ty init) =
      WriteProtectionIndex.mk true true true true)
  /\ (forall (h : Heap) (this source : loc) (a : Accessor) (f : Fn),
         ownProperty (h this) a = Some (Some f) ->
         writeProtected (h this) a = true ->
         (forall b, ownProperty (patchProperty this source b h this) a = Some (Some f))
         /\ ownProperty (patchMixin this source h this) a = Some (Some f)).
Proof.
  split; [done|].
  intros h this source a f Hown Hwp.
  assert (Hslot : slot (h this) a = (Some (Some f), true))
    by (unfold slot; by rewrite Hown, Hwp).
  split.
  - intros b.
    by pose proof (patchProperty_protected this source b h this a f Hslot) as [= -> _].
  - by pose proof (patchMixin_protected this source h this a f Hslot) as [= -> _].
Qed.

Lemma C1_no_override_witness :
  ownProperty (twoMakers 1) a_make = Some (Some 7)
  /\ writeProtected (twoMakers 1) a_make = true
  /\ ownProperty (patchMixin 1 2 twoMakers 1) a_make = Some (Some 7).
Proof.
  split; [reflexivity|]. split; [reflexivity|].
  apply (proj2 C1_no_override twoMakers 1 2 a_make 7); reflexivity.
Defined.

(** C8: [allowOverride] sets each flag to the negation of the matching
    entry of its argument, a missing entry counting as [true]; so
    [allowOverride({allowGet: true})] and [allowOverride()] both clear
    the four flags. *)
Theorem C8_allowOverride_negates (h : Heap) (this : loc) (o : Overrides.t) :
  writeProtectedMethods (allowOverride this (Some o) h this) =
    WriteProtectionIndex.mk
      (negb (default true (Overrides.allowMake o)))
      (negb (default true (Overrides.allowGet o)))
      (negb (default true (Overrides.allowSet o)))
      (negb (default true (Overrides.allowDel o)))
  /\ writeProtectedMethods (allowOverride this allowGetOnly h this) =
     WriteProtectionIndex.mk false false false false
  /\ writeProtectedMethods (allowOverride this None h this) =
     WriteProtectionIndex.mk false false false false.
Proof. by rewrite !allowOverride_flags. Qed.

(** C3: when [patchProperty] gets past its two guards it leaves the slot
    holding the value of the source and protected, and whenever it
    changes the own property the flag is set afterwards.  So after
    [allowOverride({allowGet: true})], a merge from a source whose [get]
    is the function [f1] leaves [get] holding [f1] and protected, and a
    second merge from a source whose [get] is [f2] leaves [get] holding
    [f1]; this for [patchProperty] on "get" and for [patchMixin]. *)
Theorem C3_single_override :
  (forall (h : Heap) (this source : loc) (a : Accessor) (v : CRUDFunction),
      ownProperty (h source) a = Some v ->
      hasMethod (h this) a && writeProtected (h this) a = false ->
      slot (patchProperty this source a h this) a = (Some v, true))
  /\ (forall (h : Heap) (this source : loc) (a : Accessor),
         ownProperty (patchProperty this source a h this) a ≠ ownProperty (h this) a ->
         writeProtected (patchProperty this source a h this) a = true)
  /\ (forall (h : Heap) (this source1 source2 : loc) (f1 f2 : Fn),
         ownProperty (h source1) a_get = Some (Some f1) ->
         ownProperty (h source2) a_get = Some (Some f2) ->
         let h1 := allowOverride this allowGetOnly h in
         let h2 := patchProperty this source1 a_get h1 in
         let h3 := patchProperty this source2 a_get h2 in
         let h2' := patchMixin this source1 h1 in
         let h3' := patchMixin this source2 h2' in
         slot (h2 this) a_get = (Some (Some f1), true)
         /\ slot (h3 this) a_get = (Some (Some f1), true)
         /\ slot (h2' this) a_get = (Some (Some f1), true)
         /\ slot (h3' this) a_get = (Some (Some f1), true)).
Proof.
  split; [|split].
  - intros h this source a v Hsrc Hguard.
    rewrite patchProperty_slot, Hsrc. unfold slot, hasMethod in *.
    by destruct (ownProperty (h this) a) as [[f|]|],
                (writeProtected (h this) a).
  - intros h this source a Hchanged.
    pose proof (patchProperty_slot this source a h) as Hslot.
    unfold slot, patchSlot in Hslot.
    destruct (ownProperty (h source) a) as [v|];
      [|by injection Hslot as Hown _].
    destruct (ownProperty (h this) a) as [[f|]|],
             (writeProtected (h this) a);
      injection Hslot as Hown Hwp; done.
  - intros h this source1 source2 f1 f2 Hs1 Hs2 h1 h2 h3 h2' h3'.
    assert (Hflag : writeProtected (h1 this) a_get = false).
    { unfold writeProtected, h1. by rewrite allowOverride_flags. }
    assert (Hsrc : ownProperty (h1 source1) a_get = Some (Some f1))
      by (unfold h1; by rewrite allowOverride_ownProperty).
    assert (H2 : slot (h2 this) a_get = (Some (Some f1), true)).
    { unfold h2. rewrite patchProperty_slot, Hsrc. unfold slot. rewrite Hflag.
      by destruct (ownProperty (h1 this) a_get) as [[f|]|]. }
    assert (H2' : slot (h2' this) a_get = (Some (Some f1), true)).
    { unfold h2'. rewrite patchMixin_slot, Hsrc. unfold slot. rewrite Hflag.
      by destruct (ownProperty (h1 this) a_get) as [[f|]|]. }
    repeat split; try done.
    + by apply patchProperty_protected.
    + by apply patchMixin_protected.
Qed.

Lemma C3_single_override_witness :
  ownProperty (getters 2) a_get = Some (Some 8)
  /\ ownProperty (getters 3) a_get = Some (Some 9)
  /\ slot (patchProperty 1 3 a_get
             (patchProperty 1 2 a_get (allowOverride 1 allowGetOnly getters)) 1)
          a_get = (Some (Some 8), true).
Proof.
  split; [reflexivity|]. split; [reflexivity|].
  apply (proj2 (proj2 C3_single_override) getters 1 2 3 8 9); reflexivity.
Defined.

(** C4: evaluation of [patchProperty] on a source built by
    [new Mixin("T")], whose "get" is an own property holding [null], into
    an unprotected target holding a function: the function is replaced by
    [null] and the flag goes from [false] to [true]. *)
Theorem C4_null_source_overwrites :
  ownProperty (emptySource 2) a_get = Some None
  /\ slot (emptySource 1) a_get = (Some (Some 7), false)
  /\ slot (patchProperty 1 2 a_get emptySource 1) a_get = (Some None, true).
Proof. by vm_compute. Qed.

End WriteProtection.

(** ** Registering mixins *)

Section Registration.
Import Mixin MixinCompositor.

Lemma bind_run {A B} (m : M A) (f : A -> M B) w :
  (m ≫= f) w =
  match m w with
  | Returned a w' => f a w'
  | Thrown e w' => Thrown e w'
  end.
Proof. done. Qed.

Lemma forEach_modifyObjects {A} (f g : A -> Heap -> Heap) (xs : list A) w :
  forEach (fun x => modifyObjects (f x) ;; modifyObjects (g x)) xs w =
  Returned tt (mkWorld (fold_left (fun h x => g x (f x h)) xs (objects w))
                       (self w) (calls w)).
Proof.
  revert w. induction xs as [|x rest IH]; intros w.
  - by destruct w.
  - cbn [forEach]. rewrite !bind_run. cbn [modifyObjects]. rewrite IH. done.
Qed.

Lemma forEach_crossPatch mixin registered w :
  forEach (fun mixin2 =>
             modifyObjects (patchMixin mixin mixin2) ;;
             modifyObjects (patchMixin mixin2 mixin)) registered w =
  Returned tt (mkWorld (crossPatch mixin registered (objects w)) (self w) (calls w)).
Proof. apply forEach_modifyObjects. Qed.

(** [addMixin] in closed form. *)
Lemma addMixin_unfold l w :
  addMixin l w =
  match type (objects w l) with
  | None => Thrown missingType w
  | Some ty =>
    let key := toPropertyKey ty in
    match mixins (self w) !! key with
    | None =>
      if inherited key then Thrown notIterable w
      else
        Returned tt
          (mkWorld (objects w)
                   (mk (plugins (self w)) (<[key := [l]]> (mixins (self w))))
                   (calls w))
    | Some registered =>
      Returned tt
        (mkWorld (crossPatch l registered (objects w))
                 (mk (plugins (self w))
                     (<[key := registered ++ [l]]> (mixins (self w))))
                 (calls w))
    end
  end.
Proof.
  unfold addMixin. rewrite bind_run. cbn [getObjects].
  destruct (type (objects w l)) as [ty|]; [|done].
  rewrite bind_run. cbn [getThis]. cbn zeta.
  destruct (mixins (self w) !! toPropertyKey ty) as [registered|].
  - by rewrite bind_run, forEach_crossPatch.
  - by destruct (inherited (toPropertyKey ty)).
Qed.

Lemma fold_left_step {S X} (f : S -> X -> S) (x : X) (xs : list X) (s : S) :
  fold_left f (x :: xs) s = fold_left f xs (f s x).
Proof. reflexivity. Qed.

Lemma crossPatch_cons mixin mixin2 rest h :
  crossPatch mixin (mixin2 :: rest) h =
  crossPatch mixin rest (patchMixin mixin2 mixin (patchMixin mixin mixin2 h)).
Proof. exact (fold_left_step _ _ _ _). Qed.

Lemma addMixins_cons x rest w :
  addMixins (x :: rest) w = addMixins rest (world (addMixin x w)).
Proof. exact (fold_left_step _ _ _ _). Qed.

Lemma crossPatch_type mixin registered h l :
  type (crossPatch mixin registered h l) = type (h l).
Proof.
  revert h. induction registered as [|mixin2 rest IH]; intros h; [done|].
  by rewrite crossPatch_cons, IH, !patchMixin_type.
Qed.

Lemma crossPatch_protected mixin registered h l a f :
  slot (h l) a = (Some (Some f), true) ->
  slot (crossPatch mixin registered h l) a = (Some (Some f), true).
Proof.
  revert h. induction registered as [|mixin2 rest IH]; intros h Hslot; [done|].
  rewrite crossPatch_cons.
  by apply IH, patchMixin_protected, patchMixin_protected.
Qed.

(** The three ways [addMixin] can end. *)
Lemma addMixin_cases x w :
  (addMixin x w = Thrown missingType w /\ type (objects w x) = None)
  \/ (exists ty, addMixin x w = Thrown notIterable w
                 /\ type (objects w x) = Some ty
                 /\ usableKey (self w) (toPropertyKey ty) = false)
  \/ (exists ty,
        addMixin x w =
        Returned tt
          (mkWorld (crossPatch x (registeredUnder (self w) (toPropertyKey ty)) (objects w))
                   (mk (plugins (self w))
                       (<[toPropertyKey ty :=
                            registeredUnder (self w) (toPropertyKey ty) ++ [x]]>
                          (mixins (self w))))
                   (calls w))
        /\ type (objects w x) = Some ty
        /\ usableKey (self w) (toPropertyKey ty) = true).
Proof.
  rewrite addMixin_unfold.
  destruct (type (objects w x)) as [ty|]; [|by left]. cbn zeta. right.
  destruct (mixins (self w) !! toPropertyKey ty) as [registered|] eqn:Hreg.
  - right. exists ty. unfold usableKey, registeredUnder. by rewrite Hreg.
  - destruct (inherited (toPropertyKey ty)) eqn:Hinh; [left|right]; exists ty;
      unfold usableKey, registeredUnder; by rewrite Hreg, Hinh.
Qed.

Lemma addMixin_type x w l :
  type (objects (world (addMixin x w)) l) = type (objects w l).
Proof.
  destruct (addMixin_cases x w) as [[-> _]|[(ty & -> & _)|(ty & -> & _)]]; [done..|].
  cbn [world objects]. apply crossPatch_type.
Qed.

Lemma addMixin_protected x w l a f :
  slot (objects w l) a = (Some (Some f), true) ->
  slot (objects (world (addMixin x w)) l) a = (Some (Some f), true).
Proof.
  intros Hslot.
  destruct (addMixin_cases x w) as [[-> _]|[(ty & -> & _)|(ty & -> & _)]]; [done..|].
  cbn [world objects]. by apply crossPatch_protected.
Qed.

Lemma addMixin_plugins x w :
  plugins (self (world (addMixin x w))) = plugins (self w)
  /\ calls (world (addMixin x w)) = calls w.
Proof.
  by destruct (addMixin_cases x w) as [[-> _]|[(ty & -> & _)|(ty & -> & _)]].
Qed.

(** After [addMixin x] the list found under a key is the list found
    before, followed by [x] when the key is that of the type of [x] and
    is usable. *)
Lemma addMixin_registeredUnder x w k :
  registeredUnder (self (world (addMixin x w))) k =
  if takes w x && bool_decide (from_option toPropertyKey "" (type (objects w x)) = k)
  then registeredUnder (self w) k ++ [x]
  else registeredUnder (self w) k.
Proof.
  unfold takes.
  destruct (addMixin_cases x w) as [[-> ->]|[(ty & -> & -> & ->)|(ty & -> & -> & ->)]];
    [done..|].
  cbn [world self mixins from_option andb].
  case_bool_decide as Hk.
  - subst. unfold registeredUnder at 1. cbn [mixins]. by rewrite lookup_insert_eq.
  - unfold registeredUnder at 1. cbn [mixins]. by rewrite lookup_insert_ne.
Qed.

Lemma addMixin_registered_mono x w k l :
  l ∈ registeredUnder (self w) k ->
  l ∈ registeredUnder (self (world (addMixin x w))) k.
Proof.
  intros Hin. rewrite addMixin_registeredUnder.
  destruct (_ && _); [|done]. apply elem_of_app. by left.
Qed.

Lemma addMixin_registers x w ty :
  type (objects w x) = Some ty ->
  usableKey (self w) (toPropertyKey ty) = true ->
  x ∈ registeredUnder (self (world (addMixin x w))) (toPropertyKey ty).
Proof.
  intros Hty Hkey. rewrite addMixin_registeredUnder. unfold takes.
  rewrite Hty, Hkey. cbn [from_option andb]. rewrite bool_decide_eq_true_2 by done.
  apply elem_of_app. right. by apply list_elem_of_singleton.
Qed.

Lemma addMixin_registered_inv x w k l :
  l ∈ registeredUnder (self (world (addMixin x w))) k ->
  l ∈ registeredUnder (self w) k \/ (l = x /\ takes w x = true).
Proof.
  rewrite addMixin_registeredUnder.
  destruct (takes w x); [|by left]. cbn [andb].
  case_bool_decide; [|by left].
  intros [Hin|Hin%list_elem_of_singleton]%elem_of_app; [by left|by right].
Qed.

(** Registering changes neither which objects have a type nor which keys
    are usable. *)
Lemma addMixin_usableKey x w k :
  usableKey (self (world (addMixin x w))) k = usableKey (self w) k.
Proof.
  destruct (addMixin_cases x w) as [[-> _]|[(ty & -> & _)|(ty & -> & _ & Hkey)]];
    [done..|].
  cbn [world self]. unfold usableKey in *. cbn [mixins].
  destruct (decide (toPropertyKey ty = k)) as [<-|Hne].
  - by rewrite lookup_insert_eq, Hkey.
  - by rewrite lookup_insert_ne.
Qed.

Lemma addMixin_takes x w y : takes (world (addMixin x w)) y = takes w y.
Proof.
  unfold takes. rewrite addMixin_type.
  destruct (type (objects w y)); [|done]. apply addMixin_usableKey.
Qed.

End Registration.

(** ** Two bundles with complementary operations *)

Section Complementary.
Import Mixin MixinCompositor.

Lemma forallb_accessors (P : Accessor -> bool) :
  forallb P accessors = true <-> forall s, P s = true.
Proof.
  unfold accessors. simpl. rewrite !andb_true_iff. split.
  - intros (? & ? & ? & ? & _) []; done.
  - intros H. by rewrite !H.
Qed.

(** Registering [A] and then [B], whose types convert to the same key,
    when that key is missing and not inherited. *)
Lemma register_pair w A B tyA tyB :
  type (objects w A) = Some tyA ->
  type (objects w B) = Some tyB ->
  toPropertyKey tyA = toPropertyKey tyB ->
  mixins (self w) !! toPropertyKey tyA = None ->
  inherited (toPropertyKey tyA) = false ->
  (addMixin A ;; addMixin B) w =
  Returned tt
    (mkWorld (patchMixin A B (patchMixin B A (objects w)))
             (mk (plugins (self w))
                 (<[toPropertyKey tyA := [A; B]]> (mixins (self w))))
             (calls w)).
Proof.
  intros HA HB Hkey Hfresh Hown.
  rewrite bind_run, addMixin_unfold, HA. cbn zeta. rewrite Hfresh, Hown.
  rewrite addMixin_unfold. cbn [objects self mixins plugins calls].
  rewrite HB. cbn zeta. rewrite <- Hkey, lookup_insert_eq.
  by rewrite insert_insert_eq.
Qed.

(** The store after [B] and [A] have patched each other, [B] first. *)
Lemma patched_pair_union h A B :
  A ≠ B ->
  disjointOperations (h A) (h B) = true ->
  methodsProtected (h B) = true ->
  let h' := patchMixin A B (patchMixin B A h) in
  holdsUnion (h' A) (h A) (h B) = true /\ holdsUnion (h' B) (h A) (h B) = true.
Proof.
  intros Hne Hdisj Hprot h'.
  unfold disjointOperations, methodsProtected in *.
  rewrite forallb_accessors in Hdisj. rewrite forallb_accessors in Hprot.
  unfold holdsUnion. rewrite !forallb_accessors.
  assert (HB : forall s, slot (h' B) s = patchSlot (slot (h B) s) (ownProperty (h A) s)).
  { intros s. unfold h'. rewrite patchMixin_other by done. apply patchMixin_slot. }
  assert (HA : forall s, slot (h' A) s =
                         patchSlot (slot (h A) s) (slot (h' B) s).1).
  { intros s. unfold h'. rewrite patchMixin_slot.
    rewrite (patchMixin_other B A h A) by done.
    rewrite (patchMixin_other A B _ B) by done. done. }
  clearbody h'.
  split; intros s; apply bool_decide_eq_true;
    specialize (Hdisj s); specialize (Hprot s);
    specialize (HA s); rewrite (HB s) in HA; specialize (HB s);
    unfold slot, hasMethod, operation, patchSlot in *; simpl in *;
    destruct (ownProperty (h A) s) as [[fa|]|], (ownProperty (h B) s) as [[fb|]|],
             (writeProtected (h A) s), (writeProtected (h B) s);
    simpl in *; try done;
    injection HA as HA _; injection HB as HB _; rewrite ?HA, ?HB; done.
Qed.

End Complementary.

Section ComplementaryClaims.
Import Mixin MixinCompositor.

Lemma disjointOperations_sym a b :
  disjointOperations a b = disjointOperations b a.
Proof.
  unfold disjointOperations, accessors. cbn [forallb].
  by rewrite !(andb_comm (hasMethod a _) (hasMethod b _)).
Qed.

Lemma holdsUnion_sym m a b :
  disjointOperations a b = true -> holdsUnion m b a = holdsUnion m a b.
Proof.
  intros Hdisj. unfold disjointOperations in Hdisj.
  rewrite forallb_accessors in Hdisj.
  unfold holdsUnion, accessors. simpl.
  assert (Hcomm : forall s, operation b s ∪ operation a s = operation a s ∪ operation b s).
  { intros s. specialize (Hdisj s). unfold hasMethod, operation in *.
    by destruct (ownProperty a s) as [[fa|]|], (ownProperty b s) as [[fb|]|]. }
  by rewrite !Hcomm.
Qed.

Lemma holdsUnion_operation m a b s :
  holdsUnion m a b = true -> operation m s = operation a s ∪ operation b s.
Proof.
  unfold holdsUnion. rewrite forallb_accessors. intros H.
  exact (bool_decide_eq_true_1 _ (H s)).
Qed.

(** C2, amended: two distinct bundles of one type, no slot holding a
    function in both, every function-holding slot protected, registered
    in a compositor that has no entry for the type, the key of the type
    not being a name inherited from [Object.prototype]: [addMixin] of both
    returns, in either order, each bundle then offers in every slot the
    operation that one of the two offered, and the two orders give the
    same operations. *)
Theorem C2_disjoint_union (w : World) (A B : loc) (ty : TypeDefinition) :
  A ≠ B ->
  type (objects w A) = Some ty ->
  type (objects w B) = Some ty ->
  mixins (self w) !! toPropertyKey ty = None ->
  inherited (toPropertyKey ty) = false ->
  disjointOperations (objects w A) (objects w B) = true ->
  methodsProtected (objects w A) = true ->
  methodsProtected (objects w B) = true ->
  exists wAB wBA,
    (addMixin A ;; addMixin B) w = Returned tt wAB
    /\ (addMixin B ;; addMixin A) w = Returned tt wBA
    /\ bothHoldUnion w wAB A B = true
    /\ bothHoldUnion w wBA A B = true
    /\ forall s, operation (objects wAB A) s = operation (objects wBA A) s
                 /\ operation (objects wAB B) s = operation (objects wBA B) s.
Proof.
  intros Hne HA HB Hkey Hown Hdisj HpA HpB.
  eexists _, _. split; [by eapply register_pair|].
  split; [by eapply register_pair|].
  pose proof (patched_pair_union (objects w) A B Hne Hdisj HpB) as [HAB1 HAB2].
  assert (Hdisj' : disjointOperations (objects w B) (objects w A) = true)
    by (by rewrite disjointOperations_sym).
  pose proof (patched_pair_union (objects w) B A (not_eq_sym Hne) Hdisj' HpA)
    as [HBA1 HBA2].
  rewrite (holdsUnion_sym _ _ _ Hdisj) in HBA1.
  rewrite (holdsUnion_sym _ _ _ Hdisj) in HBA2.
  unfold bothHoldUnion. cbn [objects].
  rewrite HAB1, HAB2, HBA1, HBA2.
  split; [done|]. split; [done|]. intros s.
  rewrite (holdsUnion_operation _ _ _ s HAB1), (holdsUnion_operation _ _ _ s HAB2).
  by rewrite (holdsUnion_operation _ _ _ s HBA1), (holdsUnion_operation _ _ _ s HBA2).
Qed.

Lemma C2_disjoint_union_witness :
  type (scenarioAB 1) = Some (TString "T")
  /\ type (scenarioAB 2) = Some (TString "T")
  /\ disjointOperations (scenarioAB 1) (scenarioAB 2) = true
  /\ exists wAB wBA,
      (addMixin 1 ;; addMixin 2) (worldOf scenarioAB) = Returned tt wAB
      /\ (addMixin 2 ;; addMixin 1) (worldOf scenarioAB) = Returned tt wBA
      /\ bothHoldUnion (worldOf scenarioAB) wAB 1 2 = true
      /\ bothHoldUnion (worldOf scenarioAB) wBA 1 2 = true
      /\ forall s, operation (objects wAB 1) s = operation (objects wBA 1) s
                   /\ operation (objects wAB 2) s = operation (objects wBA 2) s.
Proof.
  split; [reflexivity|]. split; [reflexivity|]. split; [reflexivity|].
  apply (C2_disjoint_union (worldOf scenarioAB) 1 2 (TString "T"));
    first [ reflexivity | lia ].
Defined.

(** C2 as stated fails on three inputs.  When the bundle registered
    second has been unprotected, its own function is replaced by the
    [null] of the first bundle and neither ends up with it, while the
    opposite order of registration gives the union.  When the compositor
    already holds a bundle of the type, the second bundle takes [make]
    from that bundle and not from the first.  When the type is "toString",
    a name that [mixins] inherits, [addMixin] throws and nothing is
    registered or merged. *)
Lemma C2_counterexample :
  (disjointOperations (objects laterUnprotected 1) (objects laterUnprotected 2) = true
   /\ type (objects laterUnprotected 1) = type (objects laterUnprotected 2)
   /\ bothHoldUnion laterUnprotected
        (world ((addMixin 1 ;; addMixin 2) laterUnprotected)) 1 2 = false
   /\ operation (objects (world ((addMixin 1 ;; addMixin 2) laterUnprotected)) 2) a_get = None
   /\ bothHoldUnion laterUnprotected
        (world ((addMixin 2 ;; addMixin 1) laterUnprotected)) 1 2 = true)
  /\ (disjointOperations (objects alreadyPopulated 1) (objects alreadyPopulated 2) = true
      /\ type (objects alreadyPopulated 1) = type (objects alreadyPopulated 2)
      /\ bothHoldUnion alreadyPopulated
           (world ((addMixin 1 ;; addMixin 2) alreadyPopulated)) 1 2 = false
      /\ operation (objects (world ((addMixin 1 ;; addMixin 2) alreadyPopulated)) 2) a_make
         = Some 9)
  /\ (disjointOperations (objects inheritedName 1) (objects inheritedName 2) = true
      /\ type (objects inheritedName 1) = type (objects inheritedName 2)
      /\ (addMixin 1 ;; addMixin 2) inheritedName = Thrown notIterable inheritedName
      /\ bothHoldUnion inheritedName
           (world ((addMixin 1 ;; addMixin 2) inheritedName)) 1 2 = false).
Proof. by vm_compute. Qed.

(** The scenario of the specification: after [addMixin(A)] and
    [addMixin(B)] on a new compositor, [A.get === fnB], [B.make === fnA],
    [A.make === fnA] and [B.get === fnB]. *)
Example scenario_A_then_B :
  let w := world ((addMixin 1 ;; addMixin 2) (worldOf scenarioAB)) in
  get (objects w 1) = Some (Some 8)
  /\ make (objects w 2) = Some (Some 7)
  /\ make (objects w 1) = Some (Some 7)
  /\ get (objects w 2) = Some (Some 8).
Proof. by vm_compute. Qed.

End ComplementaryClaims.

(** ** Sequences of registrations *)

Section Sequences.
Import Mixin MixinCompositor.

Lemma addMixin_returns x w :
  takes w x = true ->
  addMixin x w = Returned tt (world (addMixin x w)).
Proof.
  unfold takes.
  by destruct (addMixin_cases x w) as [[-> ->]|[(ty & -> & -> & ->)|(ty & -> & -> & ->)]].
Qed.

Lemma addMixin_throws x w :
  type (objects w x) = None -> addMixin x w = Thrown missingType w.
Proof. intros Hty. by rewrite addMixin_unfold, Hty. Qed.

Lemma addMixins_takes ls w y : takes (addMixins ls w) y = takes w y.
Proof.
  revert w. induction ls as [|x rest IH]; intros w; [done|].
  by rewrite addMixins_cons, IH, addMixin_takes.
Qed.

Lemma addMixins_type ls w l :
  type (objects (addMixins ls w) l) = type (objects w l).
Proof.
  revert w. induction ls as [|x rest IH]; intros w; [done|].
  rewrite addMixins_cons.
  by rewrite IH, addMixin_type.
Qed.

Lemma addMixins_protected ls w l a f :
  slot (objects w l) a = (Some (Some f), true) ->
  slot (objects (addMixins ls w) l) a = (Some (Some f), true).
Proof.
  revert w. induction ls as [|x rest IH]; intros w Hslot; [done|].
  rewrite addMixins_cons.
  by apply IH, addMixin_protected.
Qed.

Lemma addMixins_registered_mono ls w k l :
  l ∈ registeredUnder (self w) k ->
  l ∈ registeredUnder (self (addMixins ls w)) k.
Proof.
  revert w. induction ls as [|x rest IH]; intros w Hin; [done|].
  rewrite addMixins_cons.
  by apply IH, addMixin_registered_mono.
Qed.

Lemma addMixins_registers ls w x ty :
  x ∈ ls ->
  type (objects w x) = Some ty ->
  usableKey (self w) (toPropertyKey ty) = true ->
  x ∈ registeredUnder (self (addMixins ls w)) (toPropertyKey ty).
Proof.
  revert w. induction ls as [|y rest IH]; intros w Hin Hty Hkey.
  - by apply elem_of_nil in Hin.
  - rewrite addMixins_cons.
    apply elem_of_cons in Hin as [->|Hin].
    + by apply addMixins_registered_mono, addMixin_registers.
    + apply IH; [done| |].
      * by rewrite addMixin_type.
      * by rewrite addMixin_usableKey.
Qed.

Lemma addMixins_registered_inv ls w k l :
  l ∈ registeredUnder (self (addMixins ls w)) k ->
  l ∈ registeredUnder (self w) k \/ (l ∈ ls /\ takes w l = true).
Proof.
  revert w. induction ls as [|x rest IH]; intros w Hin; [by left|].
  rewrite addMixins_cons in Hin.
  apply IH in Hin as [Hin|[Hin Hty]].
  - apply addMixin_registered_inv in Hin as [Hin|[-> Hty]]; [by left|].
    right. split; [by left|done].
  - right. rewrite addMixin_takes in Hty. split; [by right|done].
Qed.

Lemma addMixins_plugins ls w :
  plugins (self (addMixins ls w)) = plugins (self w)
  /\ calls (addMixins ls w) = calls w.
Proof.
  revert w. induction ls as [|x rest IH]; intros w; [done|].
  rewrite addMixins_cons.
  destruct (IH (world (addMixin x w))) as [-> ->]. apply addMixin_plugins.
Qed.

(** The loop over the members of a plugin runs to its end when
    [addMixin] takes every member ... *)
Lemma forEach_addMixin_returns ls w :
  (forall x, x ∈ ls -> takes w x = true) ->
  forEach addMixin ls w = Returned tt (addMixins ls w).
Proof.
  revert w. induction ls as [|x rest IH]; intros w Hty; [done|].
  cbn [forEach]. rewrite bind_run, addMixin_returns by (apply Hty; by left).
  rewrite addMixins_cons.
  apply IH. intros y Hy. rewrite addMixin_takes. apply Hty. by right.
Qed.

(** ... and stops at the first member without a type, keeping what the
    members before it have done. *)
Lemma forEach_addMixin_throws pre bad post w :
  (forall x, x ∈ pre -> takes w x = true) ->
  type (objects w bad) = None ->
  forEach addMixin (pre ++ bad :: post) w = Thrown missingType (addMixins pre w).
Proof.
  revert w. induction pre as [|x rest IH]; intros w Hty Hbad.
  - cbn [app forEach]. by rewrite bind_run, addMixin_throws.
  - cbn [app forEach]. rewrite bind_run, addMixin_returns by (apply Hty; by left).
    rewrite addMixins_cons. apply IH.
    + intros y Hy. rewrite addMixin_takes. apply Hty. by right.
    + by rewrite addMixin_type.
Qed.

(** C9: two bundles of one type hold different functions in the same
    slot, both protected.  After [addMixin] of both, and after any
    further [addMixin] calls whatever their arguments, each still holds
    its own function, and so they differ in that slot; and when the key
    of the type is usable, both are registered under it. *)
Theorem C9_protected_disagreement
        (w : World) (A B : loc) (ty : TypeDefinition) (s : Accessor)
        (fA fB : Fn) (further : list loc) :
  fA ≠ fB ->
  type (objects w A) = Some ty ->
  type (objects w B) = Some ty ->
  slot (objects w A) s = (Some (Some fA), true) ->
  slot (objects w B) s = (Some (Some fB), true) ->
  let w2 := addMixins [A; B] w in
  let w' := addMixins further w2 in
  (operation (objects w2 A) s = Some fA
   /\ operation (objects w2 B) s = Some fB)
  /\ operation (objects w' A) s = Some fA
  /\ operation (objects w' B) s = Some fB
  /\ operation (objects w' A) s ≠ operation (objects w' B) s
  /\ (usableKey (self w) (toPropertyKey ty) = true ->
      A ∈ registeredUnder (self w2) (toPropertyKey ty)
      /\ B ∈ registeredUnder (self w2) (toPropertyKey ty)
      /\ A ∈ registeredUnder (self w') (toPropertyKey ty)
      /\ B ∈ registeredUnder (self w') (toPropertyKey ty)).
Proof.
  intros Hne HtA HtB HsA HsB w2 w'.
  assert (Hop : forall w0 l f,
             slot (objects w0 l) s = (Some (Some f), true) ->
             operation (objects w0 l) s = Some f).
  { intros w0 l f [= Hown _]. unfold operation. by rewrite Hown. }
  assert (HoA : operation (objects w' A) s = Some fA)
    by (by apply Hop, addMixins_protected, addMixins_protected).
  assert (HoB : operation (objects w' B) s = Some fB)
    by (by apply Hop, addMixins_protected, addMixins_protected).
  split; [split; by apply Hop, addMixins_protected|].
  split; [done|]. split; [done|]. split; [rewrite HoA, HoB; congruence|].
  intros Hkey.
  assert (HA2 : A ∈ registeredUnder (self w2) (toPropertyKey ty))
    by (apply addMixins_registers; [by left|done..]).
  assert (HB2 : B ∈ registeredUnder (self w2) (toPropertyKey ty))
    by (apply addMixins_registers; [by right; left|done..]).
  repeat split; try done; by apply addMixins_registered_mono.
Qed.

Lemma C9_protected_disagreement_witness :
  slot (twoMakers 1) a_make = (Some (Some 7), true)
  /\ slot (twoMakers 2) a_make = (Some (Some 8), true)
  /\ operation (objects (addMixins [2; 1; 2] (addMixins [1; 2] (worldOf twoMakers))) 1) a_make
     = Some 7
  /\ operation (objects (addMixins [2; 1; 2] (addMixins [1; 2] (worldOf twoMakers))) 2) a_make
     = Some 8.
Proof.
  split; [reflexivity|]. split; [reflexivity|].
  pose proof (C9_protected_disagreement (worldOf twoMakers) 1 2 (TString "T") a_make 7 8
                [2; 1; 2]) as H.
  destruct H as (_ & HA & HB & _); [lia|reflexivity..|].
  split; [exact HA|exact HB].
Defined.

End Sequences.

(** ** The type-missing error *)

Section MissingType.
Import Mixin MixinCompositor.

Variable behaviour : list Call -> Call -> Completion.

Lemma option_list_snoc {A} (l : list A) (o : option A) (x : A) :
  o = Some x -> l ++ option_list o = l ++ [x].
Proof. by intros ->. Qed.

(** A plugin that passes its load condition is recorded and its members
    are then added one by one. *)
Lemma addPlugin_loaded plugin w :
  loadResult behaviour w plugin = Fulfils true ->
  addPlugin behaviour plugin w =
  forEach addMixin (MixinPlugin.mixinsOf plugin) (entered plugin w).
Proof.
  unfold loadResult, loadCall, addPlugin, entered, loadCall.
  intros Hload. rewrite bind_run.
  destruct (MixinPlugin.loadCondition plugin) as [[f|]|]; simpl.
  - unfold invoke. rewrite Hload. simpl. by rewrite bind_run.
  - rewrite bind_run. simpl. by rewrite app_nil_r.
  - rewrite bind_run. simpl. by rewrite app_nil_r.
Qed.

(** A plugin whose load condition returns a falsy value leaves the
    compositor and the mixins alone. *)
Lemma addPlugin_skipped plugin w :
  loadResult behaviour w plugin = Fulfils false ->
  addPlugin behaviour plugin w =
  Returned tt (mkWorld (objects w) (self w) (calls w ++ option_list (loadCall plugin))).
Proof.
  unfold loadResult, loadCall, addPlugin.
  intros Hload. rewrite bind_run.
  destruct (MixinPlugin.loadCondition plugin) as [[f|]|]; simpl; [|done..].
  unfold invoke. by rewrite Hload.
Qed.

Lemma takes_entered plugin w x : takes (entered plugin w) x = takes w x.
Proof. done. Qed.

(** C5: [addMixin] on an object without a [type] property throws the
    type-missing [TypeError] and changes nothing, so the object is found
    under no key where it was not found before.  When the object is a
    member of a plugin given to [addPlugin], and [addMixin] takes the
    members enumerated before it, the same error comes out of
    [addPlugin]; those members stay registered under the keys of their
    types, and the object itself is still found under no key. *)
Theorem C5_missing_type :
  (forall (w : World) (bad : loc),
      type (objects w bad) = None ->
      addMixin bad w = Thrown missingType w)
  /\ (forall (w : World) (plugin : MixinPlugin.t) (pre post : list loc) (bad : loc),
         MixinPlugin.mixinsOf plugin = pre ++ bad :: post ->
         (forall x, x ∈ pre -> takes w x = true) ->
         type (objects w bad) = None ->
         loadResult behaviour w plugin = Fulfils true ->
         exists w',
           addPlugin behaviour plugin w = Thrown missingType w'
           /\ w' = addMixins pre (entered plugin w)
           /\ (forall x, x ∈ pre ->
                         exists ty, type (objects w x) = Some ty
                                    /\ x ∈ registeredUnder (self w') (toPropertyKey ty))
           /\ ((forall k, bad ∉ registeredUnder (self w) k) ->
               forall k, bad ∉ registeredUnder (self w') k)).
Proof.
  split; [intros w bad; apply addMixin_throws|].
  intros w plugin pre post bad Hmembers Hpre Hbad Hload.
  exists (addMixins pre (entered plugin w)).
  split; [|split; [done|split]].
  - rewrite addPlugin_loaded, Hmembers by done.
    by apply forEach_addMixin_throws.
  - intros x Hx. specialize (Hpre x Hx). unfold takes in Hpre.
    destruct (type (objects w x)) as [ty|] eqn:Hty; [|done].
    exists ty. split; [done|]. by apply addMixins_registers.
  - intros Hfresh k Hin.
    apply addMixins_registered_inv in Hin as [Hin|[_ Hty]].
    + by apply (Hfresh k).
    + rewrite takes_entered in Hty. unfold takes in Hty. by rewrite Hbad in Hty.
Qed.

End MissingType.

Lemma C5_missing_type_witness :
  MixinPlugin.mixinsOf brokenPlugin = [1] ++ 5 :: [2]
  /\ Mixin.type (MixinCompositor.objects brokenWorld 5) = None
  /\ exists w',
      MixinCompositor.addPlugin alwaysTruthy brokenPlugin brokenWorld
      = MixinCompositor.Thrown MixinCompositor.missingType w'
      /\ w' = addMixins [1] (entered brokenPlugin brokenWorld)
      /\ (forall x, x ∈ [1] ->
                    exists ty, Mixin.type (MixinCompositor.objects brokenWorld x) = Some ty
                               /\ x ∈ registeredUnder (MixinCompositor.self w') (toPropertyKey ty))
      /\ ((forall k, 5 ∉ registeredUnder (MixinCompositor.self brokenWorld) k) ->
          forall k, 5 ∉ registeredUnder (MixinCompositor.self w') k).
Proof.
  split; [reflexivity|]. split; [reflexivity|].
  apply (proj2 (C5_missing_type alwaysTruthy) brokenWorld brokenPlugin [1] [2] 5);
    try reflexivity.
  intros x ->%list_elem_of_singleton. reflexivity.
Defined.

(** What [addPlugin] leaves behind for [brokenPlugin]: the error, bundle 1
    registered under "T", the object without type and bundle 2 not
    registered, the plugin recorded. *)
Example brokenPlugin_run :
  let r := MixinCompositor.addPlugin alwaysTruthy brokenPlugin brokenWorld in
  let w' := MixinCompositor.world r in
  r = MixinCompositor.Thrown MixinCompositor.missingType w'
  /\ MixinCompositor.mixins (MixinCompositor.self w') !! "T" = Some [1]
  /\ (PluginList.own (MixinCompositor.plugins (MixinCompositor.self w'))).*1 = ["P"].
Proof. by vm_compute. Qed.

(** ** A mixin whose type is [undefined] *)

Section UndefinedType.
Import Mixin MixinCompositor.




End UndefinedType.

(** ** Plugins that allow overrides *)

Section AllowOverride.
Import Mixin.




End AllowOverride.

(** ** Enumeration order of an object's keys *)

Section KeyOrder.
Import PropertyMap.
Context {V : Type}.
Implicit Types (obj : PropertyMap.t V) (key : string) (v : V).

Lemma put_fresh key v obj :
  key ∉ obj.*1 -> put key v obj = obj ++ [(key, v)].
Proof.
  induction obj as [|[k x] rest IH]; intros Hfresh; [done|].
  simpl in *. apply not_elem_of_cons in Hfresh as [Hne Hfresh].
  rewrite bool_decide_eq_false_2 by done. by rewrite IH.
Qed.

Lemma put_existing key v obj :
  key ∈ obj.*1 -> (put key v obj).*1 = obj.*1.
Proof.
  induction obj as [|[k x] rest IH]; intros Hin; [by apply elem_of_nil in Hin|].
  simpl in *. case_bool_decide as Hk; [done|].
  simpl. f_equal. apply IH.
  apply elem_of_cons in Hin as [?|?]; [by subst|done].
Qed.

Lemma indexed_no_index obj :
  Forall (fun e => arrayIndex e.1 = None) obj -> indexed obj = [].
Proof.
  induction 1 as [|e rest He _ IH]; [done|].
  cbn [indexed]. by rewrite He.
Qed.

Lemma named_no_index obj :
  Forall (fun e => arrayIndex e.1 = None) obj -> named obj = obj.
Proof.
  unfold named, PropertyMap.t. induction 1 as [|e rest He _ IH]; [done|].
  rewrite filter_cons_True by done. by rewrite IH.
Qed.

Lemma forIn_no_index obj :
  Forall (fun e => arrayIndex e.1 = None) obj -> forIn obj = obj.
Proof.
  intros Hall. unfold forIn.
  by rewrite indexed_no_index, named_no_index.
Qed.

Lemma fold_put_fresh (registered acc : list (string * V)) :
  NoDup (acc.*1 ++ registered.*1) ->
  fold_left (fun obj e => put e.1 e.2 obj) registered acc = acc ++ registered.
Proof.
  revert acc. induction registered as [|[k v] rest IH]; intros acc Hnodup.
  - by rewrite app_nil_r.
  - simpl in *. rewrite put_fresh.
    + rewrite IH; [by rewrite <- app_assoc|].
      rewrite fmap_app. simpl. by rewrite <- app_assoc.
    + apply NoDup_app in Hnodup as (_ & Hdisj & _).
      intros Hin. apply (Hdisj k Hin). by left.
Qed.

End KeyOrder.

(** ** Initializers *)

Section Initializers.
Import MixinCompositor.

Variable behaviour : list Call -> Call -> Completion.

Lemma initOne_run ps (entry : string * MixinPlugin.t) w :
  initOne behaviour ps (entry.1, PluginList.Plugin entry.2) w =
  match initCall ps entry with
  | Some c =>
    let w' := mkWorld (objects w) (self w) (calls w ++ [c]) in
    match behaviour (calls w) c with
    | Fulfils _ => Returned tt w'
    | Fails e => Thrown e w'
    end
  | None => Returned tt w
  end.
Proof.
  unfold initOne, initCall. cbn [snd].
  destruct (MixinPlugin.initPlugin entry.2) as [[f|]|]; [|done..].
  rewrite bind_run. unfold invoke.
  by destruct (behaviour _ _).
Qed.

Lemma forEach_initOne_fulfil ps (entries : list (string * MixinPlugin.t)) w :
  allFulfil behaviour (calls w) (initCalls ps entries) = true ->
  forEach (initOne behaviour ps)
          ((fun e : string * MixinPlugin.t => (e.1, PluginList.Plugin e.2)) <$> entries) w =
  Returned tt (mkWorld (objects w) (self w) (calls w ++ initCalls ps entries)).
Proof.
  revert w. induction entries as [|entry rest IH]; intros w Hall.
  - cbn. rewrite app_nil_r. by destruct w.
  - rewrite fmap_cons. cbn [forEach]. rewrite bind_run, initOne_run.
    unfold initCalls in *. cbn [omap list_omap] in *.
    destruct (initCall ps entry) as [c|]; [|by apply IH].
    cbn [allFulfil] in Hall. cbn zeta. destruct (behaviour (calls w) c); [|done].
    rewrite IH by done. cbn [objects self calls]. by rewrite <- app_assoc.
Qed.

Lemma forEach_initOne_fail ps (entries : list (string * MixinPlugin.t)) w pre c post e :
  initCalls ps entries = pre ++ c :: post ->
  allFulfil behaviour (calls w) pre = true ->
  behaviour (calls w ++ pre) c = Fails e ->
  forEach (initOne behaviour ps)
          ((fun e : string * MixinPlugin.t => (e.1, PluginList.Plugin e.2)) <$> entries) w =
  Thrown e (mkWorld (objects w) (self w) (calls w ++ pre ++ [c])).
Proof.
  revert w pre. induction entries as [|entry rest IH]; intros w pre Hcalls Hpre Hfail.
  - by destruct pre.
  - rewrite fmap_cons. cbn [forEach]. rewrite bind_run, initOne_run.
    unfold initCalls in *. cbn [omap list_omap] in *.
    destruct (initCall ps entry) as [c0|]; [|by apply IH].
    destruct pre as [|c1 pre]; cbn [app] in *.
    + injection Hcalls as -> _. rewrite app_nil_r in Hfail. cbn zeta. by rewrite Hfail.
    + injection Hcalls as -> Hrest. cbn [allFulfil] in Hpre. cbn zeta.
      destruct (behaviour (calls w) c1); [|done].
      rewrite (IH _ pre); cbn [objects self calls]; rewrite <- ?app_assoc; done.
Qed.

(** Without a plugin named [__proto__], recording touches the own
    properties only. *)
Lemma fold_set_own (registered : list (string * MixinPlugin.t)) (obj : PluginList.t) :
  Forall (fun e => e.1 ≠ "__proto__") registered ->
  fold_left (fun obj e => PluginList.set e.1 e.2 obj) registered obj =
  PluginList.mk
    (fold_left (fun own e => PropertyMap.put e.1 e.2 own) registered (PluginList.own obj))
    (PluginList.prototype obj).
Proof.
  intros Hnames. revert obj.
  induction Hnames as [|e rest He _ IH]; intros obj; [by destruct obj|].
  rewrite !fold_left_step, IH. unfold PluginList.set.
  by rewrite bool_decide_eq_false_2.
Qed.

(** C6, amended: while the prototype of [plugins] has not been replaced,
    [initMixinPlugins] goes through the own entries of [plugins] in the
    enumeration order of its keys, which is the order of registration
    when the names are pairwise distinct and none is an array index or
    [__proto__].  For each entry whose [initPlugin] is present and not
    [null] it calls it with the plugin as receiver and one argument, the
    array of the parameters of [initMixinPlugins], and goes on once the
    call has returned.  When every call returns, the promise resolves
    with the compositor; when one fails, the promise rejects with that
    error and no later initializer has been called. *)
Theorem C6_initMixinPlugins (w : World) (initParameters : list JSValue) :
  let entries := PropertyMap.forIn (PluginList.own (plugins (self w))) in
  let inits := initCalls initParameters entries in
  (PluginList.prototype (plugins (self w)) = None ->
   (allFulfil behaviour (calls w) inits = true ->
    initMixinPlugins behaviour initParameters w =
    Returned (self w) (mkWorld (objects w) (self w) (calls w ++ inits)))
   /\ (forall pre c post e,
          inits = pre ++ c :: post ->
          allFulfil behaviour (calls w) pre = true ->
          behaviour (calls w ++ pre) c = Fails e ->
          initMixinPlugins behaviour initParameters w =
          Thrown e (mkWorld (objects w) (self w) (calls w ++ pre ++ [c]))))
  /\ (forall registered,
         plugins (self w) = recordAll registered ->
         NoDup registered.*1 ->
         Forall (fun e => PropertyMap.arrayIndex e.1 = None) registered ->
         Forall (fun e => e.1 ≠ "__proto__") registered ->
         PluginList.prototype (plugins (self w)) = None /\ entries = registered).
Proof.
  intros entries inits. split.
  - intros Hproto.
    assert (Hloop : PluginList.forIn (plugins (self w)) =
                    (fun e : string * MixinPlugin.t => (e.1, PluginList.Plugin e.2))
                      <$> entries).
    { unfold PluginList.forIn. by rewrite Hproto, app_nil_r. }
    split.
    + intros Hall. unfold initMixinPlugins.
      rewrite bind_run. cbn [getThis]. rewrite bind_run, Hloop.
      by rewrite forEach_initOne_fulfil.
    + intros pre c post e Hinits Hpre Hfail. unfold initMixinPlugins.
      rewrite bind_run. cbn [getThis]. rewrite bind_run, Hloop.
      by rewrite (forEach_initOne_fail _ _ _ pre c post e).
  - intros registered Hrec Hnodup Hnames Hproto. unfold entries.
    rewrite Hrec. unfold recordAll. rewrite fold_set_own by done.
    cbn [PluginList.own PluginList.prototype PluginList.empty].
    split; [done|].
    rewrite fold_put_fresh by done.
    by apply forIn_no_index.
Qed.

End Initializers.

Section InitializerExamples.
Import MixinCompositor.

Lemma C6_initMixinPlugins_witness :
  initMixinPlugins alwaysTruthy someArgs threeHooks =
    Returned (self threeHooks)
      (mkWorld (objects threeHooks) (self threeHooks)
         (calls threeHooks
            ++ initCalls someArgs
                 (PropertyMap.forIn (PluginList.own (plugins (self threeHooks))))))
  /\ initMixinPlugins (failsOn 2 (UserError 0)) someArgs threeHooks =
     Thrown (UserError 0)
       (mkWorld (objects threeHooks) (self threeHooks)
          (calls threeHooks
             ++ [mkCall 1 (hook "a" 1) [JSArray someArgs]]
             ++ [mkCall 2 (hook "b" 2) [JSArray someArgs]]))
  /\ PluginList.prototype (plugins (self threeHooks)) = None
  /\ PropertyMap.forIn (PluginList.own (plugins (self threeHooks))) =
     [("a", hook "a" 1); ("b", hook "b" 2); ("c", hook "c" 3)].
Proof.
  split; [|split].
  - apply (proj1 (proj1 (C6_initMixinPlugins alwaysTruthy threeHooks someArgs) eq_refl)).
    reflexivity.
  - apply (proj2 (proj1 (C6_initMixinPlugins (failsOn 2 (UserError 0)) threeHooks someArgs)
                        eq_refl)
                 [mkCall 1 (hook "a" 1) [JSArray someArgs]]
                 (mkCall 2 (hook "b" 2) [JSArray someArgs])
                 [mkCall 3 (hook "c" 3) [JSArray someArgs]]
                 (UserError 0));
      reflexivity.
  - apply (proj2 (C6_initMixinPlugins alwaysTruthy threeHooks someArgs)
                 [("a", hook "a" 1); ("b", hook "b" 2); ("c", hook "c" 3)]).
    + reflexivity.
    + apply (bool_decide_unpack _). by vm_compute.
    + apply (bool_decide_unpack _). by vm_compute.
    + apply (bool_decide_unpack _). by vm_compute.
Defined.

(** C6 as stated fails on four inputs.  The initializer of the only
    plugin receives one argument, the array [[1, 2]], and not the two
    arguments [1] and [2].  Plugin "2" registered before plugin "1" is
    initialized after it.  A plugin registered under a name already in
    use takes the place of the earlier one, whose initializer is not
    called, and is initialized before the plugins registered in
    between.  A plugin named "__proto__" becomes the prototype of
    [plugins]: its initializer is not called and the promise rejects with
    a [TypeError] that no initializer raised. *)
Lemma C6_counterexample :
  (calls (world (initMixinPlugins alwaysTruthy someArgs single)) =
     [mkCall 1 (hook "a" 1) [JSArray someArgs]]
   /\ describedInitCalls [hook "a" 1] someArgs = [mkCall 1 (hook "a" 1) someArgs]
   /\ calls (world (initMixinPlugins alwaysTruthy someArgs single))
      ≠ describedInitCalls [hook "a" 1] someArgs)
  /\ (callee <$> calls (world (initMixinPlugins alwaysTruthy someArgs twoThenOne)) = [11; 21]
      /\ callee <$> describedInitCalls [hook "2" 21; hook "1" 11] someArgs = [21; 11])
  /\ (callee <$> calls (world (initMixinPlugins alwaysTruthy someArgs reRegistered)) = [3; 2]
      /\ callee <$> describedInitCalls [hook "a" 1; hook "b" 2; hook "a" 3] someArgs
         = [1; 2; 3])
  /\ (initMixinPlugins alwaysTruthy someArgs protoNamed
      = Thrown (notAnObject "__proto__") protoNamed
      /\ calls protoNamed = []
      /\ callee <$> describedInitCalls [hook "__proto__" 1] someArgs = [1]).
Proof.
  split; [|split; [|split]]; [|by vm_compute..].
  split; [by vm_compute|]. split; [by vm_compute|].
  intros Heq. vm_compute in Heq. discriminate Heq.
Qed.

End InitializerExamples.

(** ** Recording plugins *)

Section Recording.
Import MixinCompositor.

Variable behaviour : list Call -> Call -> Completion.

Lemma forEach_addMixin_plugins ls w :
  plugins (self (world (forEach addMixin ls w))) = plugins (self w).
Proof.
  revert w. induction ls as [|x rest IH]; intros w; [done|].
  simpl. rewrite bind_run.
  destruct (addMixin x w) as [[] w'|e w'] eqn:Hadd.
  - rewrite IH. replace w' with (world (addMixin x w)) by (by rewrite Hadd).
    apply addMixin_plugins.
  - replace w' with (world (addMixin x w)) by (by rewrite Hadd).
    apply addMixin_plugins.
Qed.

(** A plugin that passes its load condition is recorded under its name,
    whether or not one of its members then makes [addPlugin] throw. *)
Lemma addPlugin_records plugin w :
  loadResult behaviour w plugin = Fulfils true ->
  plugins (self (world (addPlugin behaviour plugin w))) =
  PluginList.set (default "Untitled Plugin" (MixinPlugin.name plugin)) plugin
                 (plugins (self w)).
Proof.
  intros Hload. rewrite addPlugin_loaded by done.
  by rewrite forEach_addMixin_plugins.
Qed.

End Recording.

(** ** The tests of the repository *)

Section RepositoryTests.
Import Mixin MixinCompositor.

Example constructor_assigns :
  let mixin := createDummyMixin "TestType" 10 in
  make mixin = Some (Some 10) /\ get mixin = Some (Some 11)
  /\ set mixin = Some (Some 12) /\ del mixin = Some (Some 13).
Proof. done. Qed.

Example patchMixin_prevents_overrides :
  let h := heapOf [(1, createDummyMixin "TestType" 10);
                   (2, createDummyMixin "TestType" 20)] in
  patchMixin 1 2 h 1 = h 1.
Proof. by vm_compute. Qed.

Example patchMixin_mixes :
  let h := heapOf [(1, Mixin.new (TString "TestType") None);
                   (2, createDummyMixin "TestType" 20)] in
  forall s, ownProperty (patchMixin 1 2 h 1) s = ownProperty (h 2) s.
Proof. intros ? s. by destruct s; vm_compute. Qed.

Example addMixin_mixes_identical_types :
  let h := heapOf [(1, Mixin.new (TString "TestType") None);
                   (2, createDummyMixin "TestType" 20)] in
  let w := addMixins [1; 2] (worldOf h) in
  forall s, ownProperty (objects w 1) s = ownProperty (objects w 2) s
            /\ hasMethod (objects w 1) s = true.
Proof. intros ? ? s. by destruct s; vm_compute. Qed.

Example addMixin_keeps_types_apart :
  let h := heapOf [(1, Mixin.new (TString "TestTypeOne") None);
                   (2, createDummyMixin "TestTypeTwo" 20)] in
  let w := addMixins [1; 2] (worldOf h) in
  forall s, ownProperty (objects w 1) s = Some None
            /\ hasMethod (objects w 2) s = true.
Proof. intros ? ? s. by destruct s; vm_compute. Qed.

End RepositoryTests.


(** * Further properties of the three classes *)

(** ** Merging, slot by slot *)

Section Merging.
Import Mixin.

(** An object is its type and its four slots. *)
Lemma mixin_ext (m1 m2 : Mixin.t) :
  type m1 = type m2 -> (forall a, slot m1 a = slot m2 a) -> m1 = m2.
Proof.
  destruct m1 as [t1 [w1 w2 w3 w4] s1 s2 s3 s4], m2 as [t1' [w1' w2' w3' w4'] s1' s2' s3' s4'].
  intros Hty Hslots. cbn in Hty.
  pose proof (Hslots a_make) as [= ? ?]. pose proof (Hslots a_get) as [= ? ?].
  pose proof (Hslots a_set) as [= ? ?]. pose proof (Hslots a_del) as [= ? ?].
  by subst.
Qed.

Lemma patchSlot_idem target source :
  patchSlot (patchSlot target source) source = patchSlot target source.
Proof. by destruct target as [[[f|]|] []], source as [[g|]|]. Qed.

(** The own property of the source, read after the target has been
    patched from it once. *)
Lemma source_after_patchMixin this mixin h a :
  patchSlot (slot (patchMixin this mixin h this) a)
            (ownProperty (patchMixin this mixin h mixin) a) =
  slot (patchMixin this mixin h this) a.
Proof.
  destruct (decide (mixin = this)) as [->|Hne].
  - change (ownProperty (patchMixin this this h this) a)
      with (slot (patchMixin this this h this) a).1.
    rewrite patchMixin_slot.
    change (ownProperty (h this) a) with (slot (h this) a).1.
    by destruct (slot (h this) a) as [[[f|]|] []].
  - rewrite (patchMixin_other this mixin h mixin) by done.
    rewrite patchMixin_slot. apply patchSlot_idem.
Qed.

(** X1: a merge writes to its target only: [patchProperty] and
    [patchMixin] leave every other object of the store as it was, the
    source included, and they leave the type of the target alone. *)
Theorem merge_confined_to_target (h : Heap) (this mixin : loc) :
  (forall l, l ≠ this ->
             patchMixin this mixin h l = h l
             /\ forall a, patchProperty this mixin a h l = h l)
  /\ type (patchMixin this mixin h this) = type (h this)
  /\ forall a, type (patchProperty this mixin a h this) = type (h this).
Proof.
  split; [|split].
  - intros l Hne. split; [by apply patchMixin_other|].
    intros a. by apply patchProperty_other.
  - apply patchMixin_type.
  - intros a. apply patchProperty_type.
Qed.

Lemma merge_confined_to_target_witness :
  patchMixin 1 2 twoMakers 2 = twoMakers 2.
Proof.
  apply (proj1 (merge_confined_to_target twoMakers 1 2) 2). lia.
Defined.

(** X2: merging the same source a second time changes nothing: the store
    after [patchMixin] twice is the store after [patchMixin] once, also
    when the source is the target itself. *)
Theorem patchMixin_idempotent (h : Heap) (this mixin l : loc) :
  patchMixin this mixin (patchMixin this mixin h) l = patchMixin this mixin h l.
Proof.
  destruct (decide (l = this)) as [->|Hne]; [|by rewrite patchMixin_other].
  apply mixin_ext; [by rewrite patchMixin_type|].
  intros a. rewrite patchMixin_slot. apply source_after_patchMixin.
Qed.

(** X3: an empty slot is filled once and then kept: when the target holds
    no function in a slot and the source holds one there, [patchMixin]
    leaves the target holding that function, protected, whatever the flag
    was; and a further [patchMixin] from any source leaves it so. *)
Theorem fill_then_keep (h : Heap) (this source : loc) (a : Accessor) (f : Fn) :
  hasMethod (h this) a = false ->
  ownProperty (h source) a = Some (Some f) ->
  slot (patchMixin this source h this) a = (Some (Some f), true)
  /\ forall other,
      slot (patchMixin this other (patchMixin this source h) this) a
      = (Some (Some f), true).
Proof.
  intros Hempty Hsrc.
  assert (Hfilled : slot (patchMixin this source h this) a = (Some (Some f), true)).
  { rewrite patchMixin_slot, Hsrc. unfold slot, hasMethod in *.
    by destruct (ownProperty (h this) a) as [[g|]|], (writeProtected (h this) a). }
  split; [done|]. intros other. by apply patchMixin_protected.
Qed.

Lemma fill_then_keep_witness :
  hasMethod (scenarioAB 2) a_make = false
  /\ ownProperty (scenarioAB 1) a_make = Some (Some 7)
  /\ slot (patchMixin 2 1 scenarioAB 2) a_make = (Some (Some 7), true).
Proof.
  split; [reflexivity|]. split; [reflexivity|].
  exact (proj1 (fill_then_keep scenarioAB 2 1 a_make 7 eq_refl eq_refl)).
Defined.

(** X4: the four slot merges do not interfere: [patchProperty] on two
    accessors gives the same store in either order. *)
Theorem patchProperty_commute (h : Heap) (this mixin : loc) (a b : Accessor) (l : loc) :
  patchProperty this mixin a (patchProperty this mixin b h) l =
  patchProperty this mixin b (patchProperty this mixin a h) l.
Proof.
  destruct (decide (a = b)) as [->|Hab]; [done|].
  destruct (decide (l = this)) as [->|Hne]; [|by rewrite !patchProperty_other].
  assert (Hsrc : forall x y h', x ≠ y ->
    ownProperty (patchProperty this mixin x h' mixin) y = ownProperty (h' mixin) y).
  { intros x y h' Hxy.
    change (ownProperty (patchProperty this mixin x h' mixin) y)
      with (slot (patchProperty this mixin x h' mixin) y).1.
    rewrite patchProperty_frame; [done|by right]. }
  apply mixin_ext; [by rewrite !patchProperty_type|].
  intros c.
  destruct (decide (c = a)) as [->|Hca]; [|destruct (decide (c = b)) as [->|Hcb]].
  - rewrite patchProperty_slot, Hsrc by done.
    rewrite (patchProperty_frame this mixin b) by (by right).
    rewrite (patchProperty_frame this mixin b) by (by right).
    by rewrite patchProperty_slot.
  - rewrite (patchProperty_frame this mixin a) by (by right).
    rewrite patchProperty_slot.
    rewrite patchProperty_slot, Hsrc by done.
    by rewrite (patchProperty_frame this mixin a) by (by right).
  - by rewrite !patchProperty_frame by (right; congruence).
Qed.

(** X5: merging an object into itself changes no own property and sets
    the flag of every slot that is an own property; a slot that is not an
    own property keeps its flag. *)
Theorem self_merge_protects (h : Heap) (this : loc) (a : Accessor) :
  ownProperty (patchMixin this this h this) a = ownProperty (h this) a
  /\ writeProtected (patchMixin this this h this) a =
     match ownProperty (h this) a with
     | Some _ => true
     | None => writeProtected (h this) a
     end.
Proof.
  pose proof (patchMixin_slot this this h a) as Hslot.
  unfold slot, patchSlot in Hslot.
  destruct (ownProperty (h this) a) as [[f|]|], (writeProtected (h this) a);
    by injection Hslot as -> ->.
Qed.

End Merging.

(** ** Protection under merges and registrations *)

Section Protection.
Import Mixin MixinCompositor.

Lemma allowOverride_type this o h l :
  type (allowOverride this o h l) = type (h l).
Proof.
  destruct (decide (l = this)) as [->|Hne]; [|by rewrite allowOverride_other].
  unfold allowOverride. by rewrite store_same.
Qed.

(** X6: [allowOverride] sets the four flags from its argument alone: a
    second call replaces the effect of the first, whatever the flags were,
    and no call changes an operation, a type or another object. *)
Theorem allowOverride_last_call_wins (h : Heap) (this : loc) (o1 o2 : option Overrides.t) :
  (forall l, allowOverride this o2 (allowOverride this o1 h) l = allowOverride this o2 h l)
  /\ (forall l a, ownProperty (allowOverride this o1 h l) a = ownProperty (h l) a)
  /\ (forall l, type (allowOverride this o1 h l) = type (h l))
  /\ (forall l, l ≠ this -> allowOverride this o1 h l = h l).
Proof.
  split; [|split; [|split]].
  - intros l. destruct (decide (l = this)) as [->|Hne].
    + apply mixin_ext; [by rewrite !allowOverride_type|].
      intros a. unfold slot.
      rewrite !allowOverride_ownProperty.
      unfold writeProtected. by rewrite !allowOverride_flags.
    + by rewrite !allowOverride_other.
  - intros l a. apply allowOverride_ownProperty.
  - intros l. apply allowOverride_type.
  - intros l Hne. by apply allowOverride_other.
Qed.

Lemma allowOverride_last_call_wins_witness :
  allowOverride 1 None twoMakers 2 = twoMakers 2.
Proof.
  apply (proj2 (proj2 (proj2 (allowOverride_last_call_wins twoMakers 1 None None))) 2).
  lia.
Defined.

Lemma slot_methodsProtected m :
  methodsProtected m = true <->
  forall a, match slot m a with (Some (Some _), false) => False | _ => True end.
Proof.
  unfold methodsProtected. rewrite forallb_accessors.
  split; intros H a; specialize (H a); unfold slot, hasMethod in *;
    by destruct (ownProperty m a) as [[f|]|], (writeProtected m a).
Qed.

Lemma patchSlot_keeps target source :
  (target.2 = true -> (patchSlot target source).2 = true)
  /\ (match target with (Some (Some _), false) => False | _ => True end ->
      match patchSlot target source with (Some (Some _), false) => False | _ => True end).
Proof. by destruct target as [[[f|]|] []], source as [[g|]|]. Qed.

Lemma patchMixin_slot_any this mixin h l a :
  exists source, slot (patchMixin this mixin h l) a = patchSlot (slot (h l) a) source.
Proof.
  destruct (decide (l = this)) as [->|Hne].
  - eexists. apply patchMixin_slot.
  - exists None. by rewrite patchMixin_other.
Qed.

Lemma patchMixin_keeps_flag this mixin h l a :
  writeProtected (h l) a = true ->
  writeProtected (patchMixin this mixin h l) a = true.
Proof.
  intros Hwp.
  destruct (patchMixin_slot_any this mixin h l a) as [source Hslot].
  change (writeProtected (patchMixin this mixin h l) a)
    with (slot (patchMixin this mixin h l) a).2.
  rewrite Hslot. by apply patchSlot_keeps.
Qed.

Lemma patchMixin_methodsProtected this mixin h l :
  methodsProtected (h l) = true ->
  methodsProtected (patchMixin this mixin h l) = true.
Proof.
  rewrite !slot_methodsProtected. intros H a.
  destruct (patchMixin_slot_any this mixin h l a) as [source ->].
  apply patchSlot_keeps, H.
Qed.

(** X7: a merge never clears a flag and never leaves a function
    unprotected: in every object of the store a flag that was set is
    still set after [patchMixin], and an object in which every
    function-holding slot was protected is still such an object. *)
Theorem merge_never_unprotects (h : Heap) (this mixin l : loc) :
  (forall a, writeProtected (h l) a = true ->
             writeProtected (patchMixin this mixin h l) a = true)
  /\ (methodsProtected (h l) = true ->
      methodsProtected (patchMixin this mixin h l) = true).
Proof.
  split.
  - intros a. apply patchMixin_keeps_flag.
  - apply patchMixin_methodsProtected.
Qed.

Lemma merge_never_unprotects_witness :
  methodsProtected (scenarioAB 2) = true
  /\ methodsProtected (patchMixin 2 1 scenarioAB 2) = true.
Proof.
  split; [reflexivity|].
  exact (proj2 (merge_never_unprotects scenarioAB 2 1 2) eq_refl).
Defined.

Lemma crossPatch_methodsProtected x registered h l :
  methodsProtected (h l) = true ->
  methodsProtected (crossPatch x registered h l) = true.
Proof.
  revert h. induction registered as [|m rest IH]; intros h Hprot; [done|].
  rewrite crossPatch_cons. by apply IH, patchMixin_methodsProtected, patchMixin_methodsProtected.
Qed.

Lemma addMixin_methodsProtected x w l :
  methodsProtected (objects w l) = true ->
  methodsProtected (objects (world (addMixin x w)) l) = true.
Proof.
  intros Hprot.
  destruct (addMixin_cases x w) as [[-> _]|[(ty & -> & _)|(ty & -> & _)]]; [done..|].
  cbn [world objects]. by apply crossPatch_methodsProtected.
Qed.

Lemma addMixins_methodsProtected xs w l :
  methodsProtected (objects w l) = true ->
  methodsProtected (objects (addMixins xs w) l) = true.
Proof.
  revert w. induction xs as [|x rest IH]; intros w Hprot; [done|].
  rewrite addMixins_cons. by apply IH, addMixin_methodsProtected.
Qed.

(** X8: under the default protection registration never loses an
    operation: an object in which every function-holding slot is
    protected keeps that property and keeps every operation it offers
    through any sequence of [addMixin] calls, whatever their arguments and
    whether they throw. *)
Theorem protected_operations_survive (w : World) (l : loc) (xs : list loc) :
  methodsProtected (objects w l) = true ->
  methodsProtected (objects (addMixins xs w) l) = true
  /\ forall a f, operation (objects w l) a = Some f ->
                 operation (objects (addMixins xs w) l) a = Some f.
Proof.
  intros Hprot. split; [by apply addMixins_methodsProtected|].
  intros a f Hop.
  assert (Hslot : slot (objects w l) a = (Some (Some f), true)).
  { pose proof (proj1 (slot_methodsProtected _) Hprot a) as Ha.
    unfold slot, operation in *.
    by destruct (ownProperty (objects w l) a) as [[g|]|],
                (writeProtected (objects w l) a); simplify_eq. }
  pose proof (addMixins_protected xs w l a f Hslot) as [= Hown _].
  unfold operation. by rewrite Hown.
Qed.

Lemma protected_operations_survive_witness :
  methodsProtected (objects (worldOf twoMakers) 1) = true
  /\ operation (objects (addMixins [2; 1; 2] (worldOf twoMakers)) 1) a_make = Some 7.
Proof.
  split; [reflexivity|].
  exact (proj2 (protected_operations_survive (worldOf twoMakers) 1 [2; 1; 2] eq_refl)
               a_make 7 eq_refl).
Defined.

End Protection.

(** ** What a registration reaches *)

Section Reach.
Import Mixin MixinCompositor.

Lemma crossPatch_frame x registered h l :
  l ≠ x -> l ∉ registered -> crossPatch x registered h l = h l.
Proof.
  revert h. induction registered as [|m rest IH]; intros h Hx Hreg; [done|].
  apply not_elem_of_cons in Hreg as [Hm Hrest].
  rewrite crossPatch_cons, IH by done.
  by rewrite !patchMixin_other.
Qed.

(** X9: [addMixin] reaches only the mixin it is given and the mixins
    already registered under the key of its type: every other object is
    left as it was, and so is the list found under every other key. *)
Theorem addMixin_reaches_own_type_only (w : World) (x : loc) :
  (forall l,
      l ≠ x ->
      (forall ty, type (objects w x) = Some ty ->
                  l ∉ registeredUnder (self w) (toPropertyKey ty)) ->
      objects (world (addMixin x w)) l = objects w l)
  /\ (forall k,
         (forall ty, type (objects w x) = Some ty -> toPropertyKey ty ≠ k) ->
         registeredUnder (self (world (addMixin x w))) k = registeredUnder (self w) k).
Proof.
  split.
  - intros l Hx Hreg.
    destruct (addMixin_cases x w) as [[-> _]|[(ty & -> & _)|(ty & -> & Hty & _)]];
      [done..|].
    cbn [world objects]. apply crossPatch_frame; [done|]. by apply Hreg.
  - intros k Hk. rewrite addMixin_registeredUnder. unfold takes.
    destruct (type (objects w x)) as [ty|]; [|done].
    cbn [from_option]. rewrite (bool_decide_eq_false_2 _ (Hk ty eq_refl)).
    by rewrite andb_false_r.
Qed.

Lemma addMixin_reaches_own_type_only_witness :
  objects (world (addMixin 2 (addMixins [1] (worldOf twoMakers)))) 3
  = objects (addMixins [1] (worldOf twoMakers)) 3.
Proof.
  apply (proj1 (addMixin_reaches_own_type_only (addMixins [1] (worldOf twoMakers)) 2) 3).
  - lia.
  - intros ty [= <-]. vm_compute. intros Hin.
    apply list_elem_of_singleton in Hin. discriminate.
Defined.

(** X10: [addMixin] appends: after a call that returns, the mixin has a
    type and the list under the key of that type is the former list
    followed by the mixin; a second call with the same mixin returns too
    and lists it twice (no deduplication); after a call that throws, the
    world is unchanged. *)
Theorem addMixin_appends (w : World) (x : loc) :
  (forall w',
      addMixin x w = Returned tt w' ->
      exists ty w'',
        type (objects w x) = Some ty
        /\ registeredUnder (self w') (toPropertyKey ty)
           = registeredUnder (self w) (toPropertyKey ty) ++ [x]
        /\ addMixin x w' = Returned tt w''
        /\ registeredUnder (self w'') (toPropertyKey ty)
           = registeredUnder (self w) (toPropertyKey ty) ++ [x; x])
  /\ (forall e w', addMixin x w = Thrown e w' -> w' = w).
Proof.
  split.
  - intros w' Hrun.
    assert (Hw' : w' = world (addMixin x w)) by (by rewrite Hrun).
    assert (Htakes : takes w x = true).
    { unfold takes.
      by destruct (addMixin_cases x w)
        as [[Hthrow _]|[(ty & Hthrow & _)|(ty & _ & -> & ->)]];
        [rewrite Hthrow in Hrun..|]. }
    assert (Hty : exists ty, type (objects w x) = Some ty).
    { unfold takes in Htakes. destruct (type (objects w x)) as [ty|]; [by exists ty|done]. }
    destruct Hty as [ty Hty].
    assert (Hone : forall w0, takes w0 x = true -> type (objects w0 x) = Some ty ->
              registeredUnder (self (world (addMixin x w0))) (toPropertyKey ty)
              = registeredUnder (self w0) (toPropertyKey ty) ++ [x]).
    { intros w0 H0 Ht0. rewrite addMixin_registeredUnder, H0, Ht0.
      cbn [from_option andb]. by rewrite bool_decide_eq_true_2. }
    assert (Htakes' : takes w' x = true) by (by rewrite Hw', addMixin_takes).
    assert (Hty' : type (objects w' x) = Some ty) by (by rewrite Hw', addMixin_type).
    exists ty, (world (addMixin x w')).
    split; [done|]. split; [by rewrite Hw'; apply Hone|].
    split; [by apply addMixin_returns|].
    rewrite Hone by done. rewrite Hw', Hone by done. by rewrite <- app_assoc.
  - intros e w' Hrun.
    by destruct (addMixin_cases x w)
      as [[Hthrow _]|[(ty & Hthrow & _)|(ty & Hret & _)]];
      rewrite ?Hthrow, ?Hret in Hrun; simplify_eq.
Qed.

Lemma addMixin_appends_witness :
  exists ty w'',
    type (twoMakers 1) = Some ty
    /\ registeredUnder (self (world (addMixin 1 (worldOf twoMakers)))) (toPropertyKey ty)
       = registeredUnder (self (worldOf twoMakers)) (toPropertyKey ty) ++ [1]
    /\ addMixin 1 (world (addMixin 1 (worldOf twoMakers))) = Returned tt w''
    /\ registeredUnder (self w'') (toPropertyKey ty)
       = registeredUnder (self (worldOf twoMakers)) (toPropertyKey ty) ++ [1; 1].
Proof.
  apply (proj1 (addMixin_appends (worldOf twoMakers) 1)
               (world (addMixin 1 (worldOf twoMakers)))).
  apply addMixin_returns. reflexivity.
Defined.

Lemma addMixin_wellIndexed x w : wellIndexed w -> wellIndexed (world (addMixin x w)).
Proof.
  intros Hw k l Hin. rewrite addMixin_type.
  rewrite addMixin_registeredUnder in Hin. unfold takes in Hin.
  destruct (type (objects w x)) as [ty|] eqn:Hty; [|by apply Hw].
  cbn [from_option] in Hin.
  destruct (usableKey (self w) (toPropertyKey ty)); [|by apply Hw].
  cbn [andb] in Hin. case_bool_decide as Hk; [|by apply Hw].
  apply elem_of_app in Hin as [Hin|Hin%list_elem_of_singleton]; [by apply Hw|].
  subst. by exists ty.
Qed.

(** X11: the index is consistent: starting from a new compositor, after
    any sequence of [addMixin] calls every mixin found under a key has a
    type, and that type converts to the key. *)
Theorem index_matches_types (h : Heap) (xs : list loc) (k : string) (l : loc) :
  l ∈ registeredUnder (self (addMixins xs (worldOf h))) k ->
  exists ty, type (objects (addMixins xs (worldOf h)) l) = Some ty
             /\ toPropertyKey ty = k.
Proof.
  assert (Hgen : forall w, wellIndexed w -> wellIndexed (addMixins xs w)).
  { induction xs as [|x rest IH]; intros w Hw; [done|].
    rewrite addMixins_cons. by apply IH, addMixin_wellIndexed. }
  apply Hgen. intros k' l' Hin. by apply elem_of_nil in Hin.
Qed.

Lemma index_matches_types_witness :
  exists ty, type (objects (addMixins [1; 2] (worldOf twoMakers)) 2) = Some ty
             /\ toPropertyKey ty = "T".
Proof.
  apply (index_matches_types twoMakers [1; 2] "T" 2).
  vm_compute. right. left.
Defined.

Lemma firstMethod_ext h h' registered a :
  (forall m, m ∈ registered -> h' m = h m) ->
  firstMethod h' registered a = firstMethod h registered a.
Proof.
  induction registered as [|m rest IH]; intros Hext; [done|].
  cbn [firstMethod]. rewrite (Hext m) by (by left).
  rewrite IH; [done|]. intros m' Hm'. apply Hext. by right.
Qed.

Lemma hasMethod_slot m a : hasMethod m a = holdsFunction (slot m a).
Proof. done. Qed.

Lemma operation_slot m a :
  operation m a = match (slot m a).1 with Some v => v | None => None end.
Proof. done. Qed.

Lemma patchSlot_fills s f :
  holdsFunction s = false -> patchSlot s (Some (Some f)) = (Some (Some f), true).
Proof. by destruct s as [[[g|]|] []]. Qed.

Lemma patchSlot_stays_empty s source :
  holdsFunction s = false ->
  match source with Some (Some _) => False | _ => True end ->
  holdsFunction (patchSlot s source) = false.
Proof. by destruct s as [[[g|]|] []], source as [[f|]|]. Qed.

Lemma crossPatch_first h x registered a :
  x ∉ registered -> NoDup registered ->
  hasMethod (h x) a = false ->
  operation (crossPatch x registered h x) a = firstMethod h registered a.
Proof.
  revert h. induction registered as [|m rest IH]; intros h Hx Hnodup Hempty.
  - unfold operation, hasMethod in *. cbn [crossPatch fold_left firstMethod].
    by destruct (ownProperty (h x) a) as [[f|]|].
  - apply not_elem_of_cons in Hx as [Hxm Hx].
    apply NoDup_cons in Hnodup as [Hm Hnodup].
    rewrite crossPatch_cons. cbn [firstMethod].
    set (h1 := patchMixin m x (patchMixin x m h)).
    assert (Hx1 : slot (h1 x) a = patchSlot (slot (h x) a) (ownProperty (h m) a)).
    { unfold h1. rewrite patchMixin_other by done. apply patchMixin_slot. }
    assert (Hrest : forall m', m' ∈ rest -> h1 m' = h m').
    { intros m' Hm'. unfold h1.
      rewrite !patchMixin_other; [done|set_solver..]. }
    clearbody h1. rewrite hasMethod_slot in Hempty.
    rewrite <- (firstMethod_ext h h1 rest a Hrest).
    unfold operation at 2.
    destruct (ownProperty (h m) a) as [[f|]|] eqn:Hsrc.
    + rewrite patchSlot_fills in Hx1 by done.
      pose proof (crossPatch_protected x rest h1 x a f Hx1) as Hkept.
      rewrite operation_slot. by rewrite Hkept.
    + apply IH; [done..|].
      rewrite hasMethod_slot, Hx1. by apply patchSlot_stays_empty.
    + apply IH; [done..|].
      rewrite hasMethod_slot, Hx1. by apply patchSlot_stays_empty.
Qed.

(** X12: first come, first served: a mixin that holds no function in a
    slot, added to a compositor whose list for the type holds other,
    pairwise distinct mixins, ends up with the operation of the first
    registered mixin that offers one (and without an operation when none
    does). *)
Theorem newcomer_takes_first_registered
        (w : World) (x : loc) (ty : TypeDefinition) (a : Accessor) :
  type (objects w x) = Some ty ->
  x ∉ registeredUnder (self w) (toPropertyKey ty) ->
  NoDup (registeredUnder (self w) (toPropertyKey ty)) ->
  hasMethod (objects w x) a = false ->
  operation (objects (world (addMixin x w)) x) a
  = firstMethod (objects w) (registeredUnder (self w) (toPropertyKey ty)) a.
Proof.
  intros Hty Hx Hnodup Hempty.
  assert (Hnone : operation (objects w x) a = None).
  { unfold operation, hasMethod in *.
    by destruct (ownProperty (objects w x) a) as [[f|]|]. }
  destruct (addMixin_cases x w)
    as [[_ Hno]|[(ty' & -> & Hty' & Hkey)|(ty' & -> & Hty' & _)]].
  - by rewrite Hty in Hno.
  - rewrite Hty in Hty'. injection Hty' as <-. cbn [world].
    unfold usableKey in Hkey. unfold registeredUnder.
    destruct (mixins (self w) !! toPropertyKey ty); [done|]. by rewrite Hnone.
  - rewrite Hty in Hty'. injection Hty' as <-. cbn [world objects].
    by apply crossPatch_first.
Qed.

Lemma newcomer_takes_first_registered_witness :
  operation (objects (world (addMixin 3 (addMixins [2; 1] (worldOf oneMaker)))) 3) a_make
  = firstMethod (objects (addMixins [2; 1] (worldOf oneMaker)))
                (registeredUnder (self (addMixins [2; 1] (worldOf oneMaker))) "T") a_make.
Proof.
  apply (newcomer_takes_first_registered
           (addMixins [2; 1] (worldOf oneMaker)) 3 (TString "T") a_make).
  - reflexivity.
  - vm_compute. intros Hin. by repeat (apply elem_of_cons in Hin as [Hin|Hin]; [discriminate|]);
      apply elem_of_nil in Hin.
  - apply (bool_decide_unpack _). by vm_compute.
  - reflexivity.
Defined.

Lemma crossPatch_spreads h x registered m a f :
  m ∈ registered ->
  slot (h x) a = (Some (Some f), true) ->
  hasMethod (h m) a = false ->
  slot (crossPatch x registered h m) a = (Some (Some f), true).
Proof.
  revert h. induction registered as [|m0 rest IH]; intros h Hin Hx Hempty.
  - by apply elem_of_nil in Hin.
  - rewrite crossPatch_cons.
    assert (Hmx : m ≠ x).
    { intros ->. rewrite hasMethod_slot, Hx in Hempty. done. }
    set (h0 := patchMixin x m0 h).
    assert (Hx0 : slot (h0 x) a = (Some (Some f), true))
      by (by apply patchMixin_protected).
    destruct (decide (m0 = m)) as [->|Hne].
    + apply crossPatch_protected.
      rewrite patchMixin_slot.
      change (ownProperty (h0 x) a) with (slot (h0 x) a).1. rewrite Hx0.
      apply patchSlot_fills.
      unfold h0. rewrite (patchMixin_other x m h m) by done.
      by rewrite <- hasMethod_slot.
    + apply elem_of_cons in Hin as [?|Hin]; [done|].
      apply IH; [done|by apply patchMixin_protected|].
      unfold h0. by rewrite !patchMixin_other.
Qed.

(** X13: what a newcomer offers spreads: when the added mixin holds a
    protected function in a slot, every mixin registered under its type
    that held no function in that slot holds that function afterwards,
    protected. *)
Theorem registered_take_from_newcomer
        (w : World) (x m : loc) (ty : TypeDefinition) (a : Accessor) (f : Fn) :
  type (objects w x) = Some ty ->
  m ∈ registeredUnder (self w) (toPropertyKey ty) ->
  slot (objects w x) a = (Some (Some f), true) ->
  hasMethod (objects w m) a = false ->
  slot (objects (world (addMixin x w)) m) a = (Some (Some f), true).
Proof.
  intros Hty Hin Hx Hempty.
  destruct (addMixin_cases x w)
    as [[_ Hno]|[(ty' & _ & Hty' & Hkey)|(ty' & -> & Hty' & _)]].
  - by rewrite Hty in Hno.
  - rewrite Hty in Hty'. injection Hty' as <-.
    unfold usableKey in Hkey. unfold registeredUnder in Hin.
    destruct (mixins (self w) !! toPropertyKey ty); [done|].
    by apply elem_of_nil in Hin.
  - rewrite Hty in Hty'. injection Hty' as <-. cbn [world objects].
    by apply crossPatch_spreads.
Qed.

Lemma registered_take_from_newcomer_witness :
  slot (objects (world (addMixin 1 (addMixins [2; 3] (worldOf oneMaker)))) 3) a_make
  = (Some (Some 7), true).
Proof.
  apply (registered_take_from_newcomer
           (addMixins [2; 3] (worldOf oneMaker)) 1 3 (TString "T") a_make 7).
  - reflexivity.
  - vm_compute. right. left.
  - reflexivity.
  - reflexivity.
Defined.

End Reach.

(** ** Plugins *)

Section Plugins.
Import MixinCompositor.

Variable behaviour : list Call -> Call -> Completion.

Lemma valueOf_put_eq {V} key (v : V) obj : valueOf key (PropertyMap.put key v obj) = Some v.
Proof.
  induction obj as [|[k x] rest IH]; cbn [PropertyMap.put valueOf].
  - by rewrite bool_decide_eq_true_2.
  - case_bool_decide as Hk; cbn [valueOf].
    + by rewrite bool_decide_eq_true_2.
    + by rewrite bool_decide_eq_false_2.
Qed.

Lemma valueOf_put_ne {V} key key' (v : V) obj :
  key ≠ key' -> valueOf key' (PropertyMap.put key v obj) = valueOf key' obj.
Proof.
  intros Hne. induction obj as [|[k x] rest IH]; cbn [PropertyMap.put valueOf].
  - by rewrite bool_decide_eq_false_2.
  - case_bool_decide as Hk; cbn [valueOf].
    + subst. by rewrite !bool_decide_eq_false_2.
    + by rewrite IH.
Qed.

(** X14: a plugin whose load condition returns a falsy value, or throws,
    is not loaded: [addPlugin] returns in the first case and throws the
    same error in the second, and in both the compositor and every mixin
    are as before; only the call of the load condition has been made. *)
Theorem addPlugin_not_loaded (w : World) (plugin : MixinPlugin.t) :
  (loadResult behaviour w plugin = Fulfils false ->
   addPlugin behaviour plugin w =
   Returned tt (mkWorld (objects w) (self w) (calls w ++ option_list (loadCall plugin))))
  /\ (forall e,
         loadResult behaviour w plugin = Fails e ->
         addPlugin behaviour plugin w =
         Thrown e (mkWorld (objects w) (self w) (calls w ++ option_list (loadCall plugin)))).
Proof.
  split; [apply addPlugin_skipped|].
  unfold loadResult, loadCall, addPlugin.
  intros e Hload. rewrite bind_run.
  destruct (MixinPlugin.loadCondition plugin) as [[f|]|]; [|done..].
  unfold invoke. by rewrite Hload.
Qed.

(** X15: a plugin that passes its load condition, is not named
    [__proto__] and whose members [addMixin] takes is loaded whole:
    [addPlugin] returns, the plugin is the own property of [plugins] at
    its name (the default name when it has none), the own properties at
    the other names and the prototype are as before, and every member is
    registered under the key of its type. *)
Theorem addPlugin_loads (w : World) (plugin : MixinPlugin.t) :
  loadResult behaviour w plugin = Fulfils true ->
  pluginName plugin ≠ "__proto__" ->
  (forall x, x ∈ MixinPlugin.mixinsOf plugin -> takes w x = true) ->
  exists w',
    addPlugin behaviour plugin w = Returned tt w'
    /\ valueOf (pluginName plugin) (PluginList.own (plugins (self w'))) = Some plugin
    /\ (forall k, k ≠ pluginName plugin ->
                  valueOf k (PluginList.own (plugins (self w')))
                  = valueOf k (PluginList.own (plugins (self w))))
    /\ PluginList.prototype (plugins (self w')) = PluginList.prototype (plugins (self w))
    /\ (forall x, x ∈ MixinPlugin.mixinsOf plugin ->
                  exists ty, Mixin.type (objects w x) = Some ty
                             /\ x ∈ registeredUnder (self w') (toPropertyKey ty)).
Proof.
  intros Hload Hname Htakes.
  exists (addMixins (MixinPlugin.mixinsOf plugin) (entered plugin w)).
  assert (Hplugins : plugins (self (addMixins (MixinPlugin.mixinsOf plugin) (entered plugin w)))
                     = PluginList.mk
                         (PropertyMap.put (pluginName plugin) plugin
                                          (PluginList.own (plugins (self w))))
                         (PluginList.prototype (plugins (self w)))).
  { destruct (addMixins_plugins (MixinPlugin.mixinsOf plugin) (entered plugin w))
      as [-> _].
    cbn [entered self plugins]. unfold PluginList.set.
    fold (pluginName plugin). by rewrite bool_decide_eq_false_2. }
  split; [|split; [|split; [|split]]].
  - rewrite addPlugin_loaded by done. by apply forEach_addMixin_returns.
  - rewrite Hplugins. apply valueOf_put_eq.
  - intros k Hk. rewrite Hplugins. by apply valueOf_put_ne.
  - by rewrite Hplugins.
  - intros x Hx. specialize (Htakes x Hx). unfold takes in Htakes.
    destruct (Mixin.type (objects w x)) as [ty|] eqn:Hty; [|done].
    exists ty. split; [done|]. by apply addMixins_registers.
Qed.

Lemma initOne_readonly ps entry w :
  let r := initOne behaviour ps entry w in
  objects (world r) = objects w
  /\ self (world r) = self w
  /\ calls w `prefix_of` calls (world r).
Proof.
  cbn zeta. destruct entry as [key [plugin|s|b| |f|m]]; unfold initOne; cbn [snd];
    try done.
  destruct (MixinPlugin.initPlugin plugin) as [[f|]|]; try done.
  rewrite bind_run. unfold invoke.
  destruct (behaviour _ _); cbn [world objects self calls];
    (split; [done|]; split; [done|]; by apply prefix_app_r).
Qed.

Lemma forEach_initOne_readonly ps entries w :
  let r := forEach (initOne behaviour ps) entries w in
  objects (world r) = objects w
  /\ self (world r) = self w
  /\ calls w `prefix_of` calls (world r).
Proof.
  revert w. induction entries as [|entry rest IH]; intros w; [done|].
  cbn [forEach]. cbn zeta. rewrite bind_run.
  pose proof (initOne_readonly ps entry w) as (Ho & Hs & Hc). cbn zeta in *.
  destruct (initOne behaviour ps entry w) as [[] w1|e w1]; cbn [world] in *.
  - destruct (IH w1) as (Ho' & Hs' & Hc'). cbn zeta in *.
    split; [by rewrite Ho'|]. split; [by rewrite Hs'|]. by etrans.
  - done.
Qed.

(** X16: [initMixinPlugins] only calls initializers: whether the promise
    resolves or rejects, the compositor and every mixin are as before and
    the earlier calls are still the beginning of the call log; a resolved
    promise carries the compositor. *)
Theorem initMixinPlugins_changes_nothing (w : World) (initParameters : list JSValue) :
  let r := initMixinPlugins behaviour initParameters w in
  objects (world r) = objects w
  /\ self (world r) = self w
  /\ calls w `prefix_of` calls (world r)
  /\ forall c w', r = Returned c w' -> c = self w.
Proof.
  cbn zeta. unfold initMixinPlugins. rewrite bind_run. cbn [getThis].
  rewrite bind_run.
  pose proof (forEach_initOne_readonly initParameters
                (PluginList.forIn (plugins (self w))) w) as Hro.
  cbn zeta in Hro.
  destruct (forEach (initOne behaviour initParameters)
                    (PluginList.forIn (plugins (self w))) w) as [[] w1|e w1];
    cbn [world getThis] in *; destruct Hro as (Ho & Hs & Hc).
  - repeat split; try done. intros c w' [= <- <-]. done.
  - repeat split; done.
Qed.

Lemma forEach_addPlugin_records groups w :
  (forall p, p ∈ groups -> loadCall p = None) ->
  (forall p x, p ∈ groups -> x ∈ MixinPlugin.mixinsOf p -> takes w x = true) ->
  exists w',
    forEach (addPlugin behaviour) groups w = Returned tt w'
    /\ plugins (self w') =
       fold_left (fun obj e => PluginList.set e.1 e.2 obj)
                 ((fun p => (pluginName p, p)) <$> groups) (plugins (self w)).
Proof.
  revert w. induction groups as [|p rest IH]; intros w Hload Htakes.
  - by exists w.
  - assert (Hp : loadResult behaviour w p = Fulfils true).
    { unfold loadResult. by rewrite (Hload p) by (by left). }
    set (w1 := addMixins (MixinPlugin.mixinsOf p) (entered p w)).
    assert (Hsame : forall x, takes w1 x = takes w x)
      by (intros x; unfold w1; by rewrite addMixins_takes, takes_entered).
    destruct (IH w1) as (w' & Hrun & Hplugins).
    { intros q Hq. apply Hload. by right. }
    { intros q x Hq Hx. rewrite Hsame. apply (Htakes q); [by right|done]. }
    exists w'. split.
    + cbn [forEach]. rewrite bind_run, addPlugin_loaded by done.
      rewrite forEach_addMixin_returns; [exact Hrun|].
      intros x Hx. rewrite takes_entered. apply (Htakes p); [by left|done].
    + rewrite Hplugins. rewrite fmap_cons, fold_left_step. do 2 f_equal.
      unfold w1. by destruct (addMixins_plugins (MixinPlugin.mixinsOf p) (entered p w))
        as [-> _].
Qed.

(** X17: the constructor registers its plugins in the order given: when
    no plugin has a load condition to call and every member has a type
    whose key is not a name inherited from [Object.prototype],
    [new MixinCompositor(groups)] returns with [plugins] holding the
    plugins recorded one after the other under their names; when these
    names are pairwise distinct and none is an array index or
    [__proto__], the prototype of [plugins] is untouched and the order in
    which [initMixinPlugins] goes through them is the order of
    [groups]. *)
Theorem constructor_records_in_order (w : World) (groups : list MixinPlugin.t) :
  (forall p, p ∈ groups -> loadCall p = None) ->
  (forall p x, p ∈ groups -> x ∈ MixinPlugin.mixinsOf p ->
               exists ty, Mixin.type (objects w x) = Some ty
                          /\ inherited (toPropertyKey ty) = false) ->
  exists w',
    MixinCompositor.new behaviour groups w = Returned tt w'
    /\ plugins (self w') = recordAll ((fun p => (pluginName p, p)) <$> groups)
    /\ (NoDup (pluginName <$> groups) ->
        Forall (fun p => PropertyMap.arrayIndex (pluginName p) = None) groups ->
        Forall (fun p => pluginName p ≠ "__proto__") groups ->
        PluginList.forIn (plugins (self w'))
        = (fun p => (pluginName p, PluginList.Plugin p)) <$> groups).
Proof.
  intros Hload Htyped.
  destruct (forEach_addPlugin_records groups (mkWorld (objects w) empty (calls w)))
    as (w' & Hrun & Hplugins); [done| |].
  { intros p x Hp Hx. destruct (Htyped p x Hp Hx) as (ty & Hty & Hkey).
    unfold takes, usableKey. cbn [objects self empty mixins].
    by rewrite Hty, lookup_empty, Hkey. }
  exists w'. split; [|split].
  - unfold MixinCompositor.new. by rewrite bind_run.
  - done.
  - intros Hnodup Hnames Hproto. rewrite Hplugins. cbn [self plugins empty].
    rewrite fold_set_own by (apply Forall_fmap; by apply (Forall_impl _ _ _ Hproto)).
    unfold PluginList.forIn. cbn [PluginList.own PluginList.prototype PluginList.empty].
    rewrite app_nil_r, fold_put_fresh.
    + rewrite app_nil_l.
      rewrite forIn_no_index by (apply Forall_fmap; by apply (Forall_impl _ _ _ Hnames)).
      clear. induction groups as [|p rest IH]; [done|].
      rewrite !fmap_cons. by rewrite IH.
    + rewrite app_nil_l, <- list_fmap_compose. exact Hnodup.
Qed.

End Plugins.

Lemma addPlugin_not_loaded_witness :
  MixinCompositor.addPlugin alwaysFalsy guarded (worldOf scenarioAB) =
    MixinCompositor.Returned tt
      (MixinCompositor.mkWorld scenarioAB MixinCompositor.empty [mkCall 40 guarded []])
  /\ MixinCompositor.addPlugin (failsOn 40 (UserError 1)) guarded (worldOf scenarioAB) =
     MixinCompositor.Thrown (UserError 1)
       (MixinCompositor.mkWorld scenarioAB MixinCompositor.empty [mkCall 40 guarded []]).
Proof.
  split.
  - exact (proj1 (addPlugin_not_loaded alwaysFalsy (worldOf scenarioAB) guarded) eq_refl).
  - exact (proj2 (addPlugin_not_loaded (failsOn 40 (UserError 1)) (worldOf scenarioAB) guarded)
                 (UserError 1) eq_refl).
Defined.

Lemma addPlugin_loads_witness :
  exists w',
    MixinCompositor.addPlugin alwaysTruthy guarded (worldOf scenarioAB)
    = MixinCompositor.Returned tt w'
    /\ valueOf "G" (PluginList.own (MixinCompositor.plugins (MixinCompositor.self w')))
       = Some guarded
    /\ (forall k, k ≠ "G" ->
                  valueOf k (PluginList.own (MixinCompositor.plugins (MixinCompositor.self w')))
                  = None)
    /\ PluginList.prototype (MixinCompositor.plugins (MixinCompositor.self w')) = None
    /\ (forall x, x ∈ [1; 2] ->
                  exists ty, Mixin.type (scenarioAB x) = Some ty
                             /\ x ∈ registeredUnder (MixinCompositor.self w') (toPropertyKey ty)).
Proof.
  apply (addPlugin_loads alwaysTruthy (worldOf scenarioAB) guarded).
  - reflexivity.
  - discriminate.
  - intros x Hx. change (x ∈ [1; 2]) in Hx.
    repeat (apply elem_of_cons in Hx as [->|Hx]; [reflexivity|]).
    by apply elem_of_nil in Hx.
Defined.

Lemma constructor_records_in_order_witness :
  exists w',
    MixinCompositor.new alwaysTruthy [hook "a" 1; hook "b" 2] (worldOf scenarioAB)
    = MixinCompositor.Returned tt w'
    /\ MixinCompositor.plugins (MixinCompositor.self w')
       = recordAll [("a", hook "a" 1); ("b", hook "b" 2)]
    /\ (NoDup ["a"; "b"] ->
        Forall (fun p => PropertyMap.arrayIndex (pluginName p) = None)
               [hook "a" 1; hook "b" 2] ->
        Forall (fun p => pluginName p ≠ "__proto__") [hook "a" 1; hook "b" 2] ->
        PluginList.forIn (MixinCompositor.plugins (MixinCompositor.self w'))
        = [("a", PluginList.Plugin (hook "a" 1)); ("b", PluginList.Plugin (hook "b" 2))]).
Proof.
  apply (constructor_records_in_order alwaysTruthy (worldOf scenarioAB)
           [hook "a" 1; hook "b" 2]).
  - intros p Hp.
    repeat (apply elem_of_cons in Hp as [->|Hp]; [reflexivity|]).
    by apply elem_of_nil in Hp.
  - intros p x Hp Hx.
    repeat (apply elem_of_cons in Hp as [->|Hp]; [by apply elem_of_nil in Hx|]).
    by apply elem_of_nil in Hp.
Defined.

(** ** The constructors *)

Section Constructors.
Import Mixin.

Lemma fold_allowOverride_keeps ls h l :
  (forall a, ownProperty (fold_left (fun h m => allowOverride m None h) ls h l) a
             = ownProperty (h l) a)
  /\ type (fold_left (fun h m => allowOverride m None h) ls h l) = type (h l)
  /\ (l ∉ ls -> fold_left (fun h m => allowOverride m None h) ls h l = h l).
Proof.
  revert h. induction ls as [|m rest IH]; intros h; [done|].
  rewrite fold_left_step.
  destruct (IH (allowOverride m None h)) as (Hown & Hty & Hframe).
  split; [|split].
  - intros a. by rewrite Hown, allowOverride_ownProperty.
  - by rewrite Hty, allowOverride_type.
  - intros [Hm Hrest]%not_elem_of_cons.
    by rewrite Hframe, allowOverride_other.
Qed.

(** X18: building a plugin touches nothing but flags of its members: the
    constructor changes no own property and no type of any object, it
    leaves every object that is not a member as it was, and it leaves the
    whole store as it was unless [allowOverride] is [true]. *)
Theorem plugin_constructor_only_unprotects (initializerObj : MixinPlugin.t) (h : Heap) :
  let this := (MixinPlugin.new initializerObj h).1 in
  let h' := (MixinPlugin.new initializerObj h).2 in
  (forall l a, ownProperty (h' l) a = ownProperty (h l) a)
  /\ (forall l, type (h' l) = type (h l))
  /\ (forall l, l ∉ MixinPlugin.mixinsOf this -> h' l = h l)
  /\ (MixinPlugin.allowOverride initializerObj ≠ Some true -> forall l, h' l = h l).
Proof.
  cbn zeta. unfold MixinPlugin.new.
  destruct (negb (default false
              (MixinPlugin.allowOverride (MixinPlugin.assignFields initializerObj))))
    eqn:Hallow; cbn [fst snd].
  - done.
  - split; [|split; [|split]].
    + intros l a. apply fold_allowOverride_keeps.
    + intros l. apply fold_allowOverride_keeps.
    + intros l Hl. by apply fold_allowOverride_keeps.
    + intros Hno. exfalso. unfold MixinPlugin.assignFields in Hallow. cbn in Hallow.
      by destruct (MixinPlugin.allowOverride initializerObj) as [[]|].
Qed.

Lemma plugin_constructor_only_unprotects_witness :
  (MixinPlugin.new (hook "a" 1) twoMakers).2 1 = twoMakers 1.
Proof.
  apply (proj2 (proj2 (proj2 (plugin_constructor_only_unprotects (hook "a" 1) twoMakers)))).
  discriminate.
Defined.

(** X19: a source built by the constructor is always copied from: each of
    its four slots is an own property, so the first guard of
    [patchProperty] never applies, and a target slot that is unprotected
    or holds no function takes the value of the source, [null] included,
    and becomes protected. *)
Theorem constructed_source_is_copied
        (h : Heap) (this source : loc) (ty : TypeDefinition)
        (init : option CRUDInitializer.t) (a : Accessor) :
  h source = Mixin.new ty init ->
  hasMethod (h this) a && writeProtected (h this) a = false ->
  ownProperty (Mixin.new ty init) a = Some (operation (Mixin.new ty init) a)
  /\ slot (patchProperty this source a h this) a
     = (Some (operation (Mixin.new ty init) a), true).
Proof.
  intros Hsrc Hguard.
  assert (Hown : ownProperty (Mixin.new ty init) a = Some (operation (Mixin.new ty init) a))
    by (by destruct a).
  split; [done|].
  rewrite patchProperty_slot, Hsrc, Hown.
  rewrite hasMethod_slot in Hguard.
  change (writeProtected (h this) a) with (slot (h this) a).2 in Hguard.
  by destruct (slot (h this) a) as [[[g|]|] []].
Qed.

Lemma constructed_source_is_copied_witness :
  slot (Mixin.patchProperty 1 2 a_get emptySource 1) a_get = (Some None, true).
Proof.
  exact (proj2 (constructed_source_is_copied emptySource 1 2 (TString "T") None a_get
                  eq_refl eq_refl)).
Defined.

End Constructors.

(** ** Types that convert to the same key *)

Section Keys.
Import Mixin MixinCompositor.

(** X20: types are told apart by their string conversion only: two
    mixins whose types convert to the same key, not a name inherited
    from [Object.prototype], are registered in the same list and patch
    each other also when the types differ (a mixin built without a type
    and one of type "undefined"). *)
Theorem same_key_same_list (w : World) (A B : loc) (tyA tyB : TypeDefinition) :
  type (objects w A) = Some tyA ->
  type (objects w B) = Some tyB ->
  toPropertyKey tyA = toPropertyKey tyB ->
  mixins (self w) !! toPropertyKey tyA = None ->
  inherited (toPropertyKey tyA) = false ->
  exists w',
    (addMixin A ;; addMixin B) w = Returned tt w'
    /\ mixins (self w') !! toPropertyKey tyA = Some [A; B]
    /\ forall l, objects w' l = patchMixin A B (patchMixin B A (objects w)) l.
Proof.
  intros HA HB Hkey Hfresh Hown.
  eexists. split; [by apply (register_pair w A B tyA tyB)|]. split.
  - cbn [self mixins]. by rewrite lookup_insert_eq.
  - done.
Qed.

Lemma same_key_same_list_witness :
  TUndefined ≠ TString "undefined"
  /\ exists w',
    (addMixin 1 ;; addMixin 2) (worldOf lookalikes) = Returned tt w'
    /\ mixins (self w') !! "undefined" = Some [1; 2]
    /\ forall l, objects w' l = patchMixin 1 2 (patchMixin 2 1 lookalikes) l.
Proof.
  split; [discriminate|].
  exact (same_key_same_list (worldOf lookalikes) 1 2 TUndefined (TString "undefined")
           eq_refl eq_refl eq_refl eq_refl eq_refl).
Defined.

End Keys.
